(** * Task manager service: model of the domain, store, list cache and service

    A shallow embedding of the Go packages [model], [dtos], [repositories],
    [service] and [handler].

    Conventions of the embedding.
    - A Go [string] is a Rocq [string]: one [ascii] per byte.
    - A Go [int] is a [Z] (the service never computes with values near the
      64-bit bounds; limits and offsets are only compared and printed).
    - A [time.Time] is the instant it denotes, in nanoseconds since the Unix
      epoch ([Time := Z]); its location is not represented, so [UTC] is the
      identity on instants.
    - [*T] arguments that may be [nil] are [option T].
    - The relational store is the [tasks] table as a list of rows in insertion
      order; the SQL statements of the repository are functions on that list.
      Identifiers are opaque strings.  The store and the cache answer every
      call: connectivity failures are outside the model, a primary-key
      violation is the one statement error.
    - The environment supplies what the code reads from outside: the value
      [uuid.New()] would return and the current instant [now] (the clock read
      by [time.Now()], by the database's [now()] and by the cache's expiry).
    - The cache maps keys to a JSON document together with the instant at
      which the entry expires.
    - The request context and the gauge [tasks_count] are not represented. *)

From Stdlib Require Import ZArith Bool Lia List Ascii String.
From Stdlib Require Import Numbers.DecimalString Numbers.DecimalZ.
From Stdlib Require Import Sorting.Sorted.
From stdpp Require Import base gmap strings list.

Local Open Scope string_scope.
Local Open Scope Z_scope.
Set Warnings "-register-all".

(* ===================================================================== *)
(** * Definitions *)
(* ===================================================================== *)

(** ** Go library functions used by the service *)

Module GoStrings.

(** The byte value of a character. *)
Definition byte (c : ascii) : N := N_of_ascii c.

(** [asciiSpace]: tab, line feed, vertical tab, form feed, carriage return
    and space. *)
Definition asciiSpace (c : ascii) : bool :=
  let n := byte c in
  ((n =? 9) || (n =? 10) || (n =? 11) || (n =? 12) || (n =? 13) || (n =? 32))%N.

(** Two-byte UTF-8 encodings of white space: U+0085 and U+00A0. *)
Definition space2 (a b : ascii) : bool :=
  ((byte a =? 194) && ((byte b =? 133) || (byte b =? 160)))%N.

(** Three-byte UTF-8 encodings of white space: U+1680, U+2000..U+200A,
    U+2028, U+2029, U+202F, U+205F and U+3000. *)
Definition space3 (a b c : ascii) : bool :=
  let x := byte a in
  let y := byte b in
  let z := byte c in
  (((x =? 225) && (y =? 154) && (z =? 128))
   || ((x =? 226) && (y =? 128)
       && (((128 <=? z) && (z <=? 138)) || (z =? 168) || (z =? 169) || (z =? 175)))
   || ((x =? 226) && (y =? 129) && (z =? 159))
   || ((x =? 227) && (y =? 128) && (z =? 128)))%N.

(** Drop leading white-space runes.  With [fwd = false] the string is read
    back to front, so the bytes of a multi-byte rune arrive in reverse. *)
Fixpoint dropSpace (fwd : bool) (s : string) : string :=
  match s with
  | EmptyString => EmptyString
  | String a r1 =>
      if asciiSpace a then dropSpace fwd r1
      else
        match r1 with
        | EmptyString => s
        | String b r2 =>
            if (if fwd then space2 a b else space2 b a) then dropSpace fwd r2
            else
              match r2 with
              | EmptyString => s
              | String c r3 =>
                  if (if fwd then space3 a b c else space3 c b a)
                  then dropSpace fwd r3
                  else s
              end
        end
  end.

Definition reverse (s : string) : string :=
  string_of_list_ascii (List.rev (list_ascii_of_string s)).

Definition TrimLeftSpace (s : string) : string := dropSpace true s.

Definition TrimRightSpace (s : string) : string :=
  reverse (dropSpace false (reverse s)).

(** [strings.TrimSpace]: the string without its leading and trailing white
    space, as defined by Unicode. *)
Definition TrimSpace (s : string) : string :=
  TrimRightSpace (TrimLeftSpace s).

(** A string made of ASCII white space only. *)
Fixpoint allAsciiSpace (s : string) : bool :=
  match s with
  | EmptyString => true
  | String a r => asciiSpace a && allAsciiSpace r
  end.

End GoStrings.

Module Fmt.

(** [fmt.Sprintf("%d", n)]: signed decimal, no padding. *)
Definition Sprintf_d (n : Z) : string :=
  NilEmpty.string_of_int (Z.to_int n).

(** [fmt.Sprintf("%v", b)] for a [bool]. *)
Definition Sprintf_v (b : bool) : string :=
  if b then "true" else "false".

End Fmt.

(** Instants, in nanoseconds since the Unix epoch. *)
Abbreviation Time := Z.

(** The zero [time.Time]: January 1, year 1, 00:00:00 UTC. *)
Definition zeroTime : Time := -62135596800 * 1000000000.

(** [t.UTC()]: the same instant. *)
Definition UTC (t : Time) : Time := t.

(** [time.Second], a [time.Duration] in nanoseconds. *)
Definition Second : Z := 1000000000.

(** ** Package model *)

Module Model.

(** [sql.NullString] *)
Record NullString : Type := mkNullString {
  ns_String : string;
  ns_Valid : bool
}.

(** [sql.NullTime] *)
Record NullTime : Type := mkNullTime {
  nt_Time : Time;
  nt_Valid : bool
}.

Record Task : Type := mkTask {
  ID : string;
  Title : string;
  Description : NullString;
  Assignee : NullString;
  Completed : bool;
  DueDate : NullTime;
  CreatedAt : Time;
  UpdatedAt : Time
}.

(** Zero values of the field types and of [Task]. *)
Definition nullString : NullString := mkNullString "" false.
Definition nullTime : NullTime := mkNullTime zeroTime false.
Definition zeroTask : Task :=
  mkTask "" "" nullString nullString false nullTime zeroTime zeroTime.

(** Field assignments [t.F = v]. *)
Definition with_ID (t : Task) (v : string) : Task :=
  mkTask v (Title t) (Description t) (Assignee t) (Completed t) (DueDate t)
         (CreatedAt t) (UpdatedAt t).
Definition with_Title (t : Task) (v : string) : Task :=
  mkTask (ID t) v (Description t) (Assignee t) (Completed t) (DueDate t)
         (CreatedAt t) (UpdatedAt t).
Definition with_Description (t : Task) (v : NullString) : Task :=
  mkTask (ID t) (Title t) v (Assignee t) (Completed t) (DueDate t)
         (CreatedAt t) (UpdatedAt t).
Definition with_Assignee (t : Task) (v : NullString) : Task :=
  mkTask (ID t) (Title t) (Description t) v (Completed t) (DueDate t)
         (CreatedAt t) (UpdatedAt t).
Definition with_Completed (t : Task) (v : bool) : Task :=
  mkTask (ID t) (Title t) (Description t) (Assignee t) v (DueDate t)
         (CreatedAt t) (UpdatedAt t).
Definition with_DueDate (t : Task) (v : NullTime) : Task :=
  mkTask (ID t) (Title t) (Description t) (Assignee t) (Completed t) v
         (CreatedAt t) (UpdatedAt t).
Definition with_CreatedAt (t : Task) (v : Time) : Task :=
  mkTask (ID t) (Title t) (Description t) (Assignee t) (Completed t)
         (DueDate t) v (UpdatedAt t).
Definition with_UpdatedAt (t : Task) (v : Time) : Task :=
  mkTask (ID t) (Title t) (Description t) (Assignee t) (Completed t)
         (DueDate t) (CreatedAt t) v.

Definition SetDescription (t : Task) (s : string) : Task :=
  with_Description t (mkNullString s true).

Definition ClearDescription (t : Task) : Task :=
  with_Description t (mkNullString "" false).

Definition SetAssignee (t : Task) (s : string) : Task :=
  with_Assignee t (mkNullString s true).

Definition ClearAssignee (t : Task) : Task :=
  with_Assignee t (mkNullString "" false).

Definition SetDueDate (t : Task) (dt : Time) : Task :=
  with_DueDate t (mkNullTime (UTC dt) true).

Definition ClearDueDate (t : Task) : Task :=
  with_DueDate t (mkNullTime zeroTime false).

End Model.

(** ** Package dtos *)

Module DTOs.
Import Model.

Record CreateTaskDTO : Type := mkCreateTaskDTO {
  c_Title : string;
  c_Description : option string;
  c_Assignee : option string;
  c_DueDate : option Time
}.

Definition CreateTaskDTO_ToModel (d : CreateTaskDTO) : Task :=
  let t := with_Title zeroTask (c_Title d) in
  let t := match c_Description d with
           | Some s => SetDescription t s
           | None => t
           end in
  let t := match c_Assignee d with
           | Some s => if (s =? "")%string then t else SetAssignee t s
           | None => t
           end in
  let t := match c_DueDate d with
           | Some dt => SetDueDate t dt
           | None => t
           end in
  t.

Record UpdateTaskDTO : Type := mkUpdateTaskDTO {
  u_Title : option string;
  u_Description : option string;
  u_Assignee : option string;
  u_Completed : option bool;
  u_DueDate : option Time
}.

Definition UpdateTaskDTO_ToModel (d : UpdateTaskDTO) (id : string) : Task :=
  let t := with_ID zeroTask id in
  let t := match u_Title d with
           | Some s => with_Title t s
           | None => t
           end in
  let t := match u_Description d with
           | Some s => if (s =? "")%string then ClearDescription t
                       else SetDescription t s
           | None => t
           end in
  let t := match u_Assignee d with
           | Some s => if (s =? "")%string then t else SetAssignee t s
           | None => t
           end in
  let t := match u_Completed d with
           | Some b => with_Completed t b
           | None => t
           end in
  let t := match u_DueDate d with
           | Some dt => SetDueDate t dt
           | None => t
           end in
  t.

End DTOs.

(** ** Errors and results *)

Inductive error : Type :=
| ErrNotFound          (* repositories.ErrNotFound: "task not found" *)
| ErrInvalidInput      (* service.ErrInvalidInput: "invalid input" *)
| ErrTaskIsNil         (* errors.New("task is nil") *)
| ErrUniqueViolation.  (* the store rejects a duplicate primary key *)

Inductive result (A : Type) : Type :=
| Ok (a : A)
| Err (e : error).
Arguments Ok {A} a.
Arguments Err {A} e.

(** ** JSON documents

    What [encoding/json] writes and reads.  The text of a document is not
    represented: a cached string is the document it spells.  [JTime t] is the
    JSON string that holds the RFC 3339 rendering of the instant [t], taken
    to determine [t]. *)

Inductive json : Type :=
| JNull
| JBool (b : bool)
| JString (s : string)
| JTime (t : Time)
| JArray (items : list json)
| JObject (members : list (string * json)).

Module JSON.
Import Model.

(** [time.Time.MarshalJSON] fails when the year is outside [0, 9999]. *)
Definition year0 : Time := -62167219200 * 1000000000.
Definition year10000 : Time := 253402300800 * 1000000000.

Definition marshalTime (t : Time) : option json :=
  if (year0 <=? t) && (t <? year10000) then Some (JTime t) else None.

(** Modelled from the spec: the JSON marshalling of [Task], which the
    comment on the type announces ("nullable DB types as simple JSON values
    (string / RFC3339 time) or null when not present") and which is not
    among the sources.  The outbound representation is
    [{id, title, description (nullable), assignee (nullable), completed,
    due_date (nullable timestamp), created_at, updated_at}]. *)
Definition marshalNullString (v : NullString) : json :=
  if ns_Valid v then JString (ns_String v) else JNull.

Definition marshalNullTime (v : NullTime) : option json :=
  if nt_Valid v then marshalTime (nt_Time v) else Some JNull.

Definition marshalTask (t : Task) : option json :=
  match marshalNullTime (DueDate t), marshalTime (CreatedAt t),
        marshalTime (UpdatedAt t) with
  | Some due, Some created, Some updated =>
      Some (JObject
              [("id", JString (ID t));
               ("title", JString (Title t));
               ("description", marshalNullString (Description t));
               ("assignee", marshalNullString (Assignee t));
               ("completed", JBool (Completed t));
               ("due_date", due);
               ("created_at", created);
               ("updated_at", updated)])
  | _, _, _ => None
  end.

Fixpoint marshalTasks (l : list Task) : option (list json) :=
  match l with
  | [] => Some []
  | t :: l' =>
      match marshalTask t, marshalTasks l' with
      | Some j, Some js => Some (j :: js)
      | _, _ => None
      end
  end.

(** [json.Marshal(tasks)] for a [[]model.Task]: a slice without elements
    is the nil slice [sqlx] left untouched, written as [null]. *)
Definition Marshal (tasks : list Task) : option json :=
  match tasks with
  | [] => Some JNull
  | _ => match marshalTasks tasks with
         | Some js => Some (JArray js)
         | None => None
         end
  end.

(** Modelled from the spec: the JSON unmarshalling of [Task], the inverse
    reading of the outbound representation; it is not among the sources.
    Members are read in order, a later member overwrites an earlier one,
    unknown members are skipped and an absent member leaves the zero
    value. *)
Definition unmarshalMember (t : Task) (m : string * json) : option Task :=
  let (k, v) := m in
  if (k =? "id")%string then
    match v with
    | JString s => Some (with_ID t s) | JNull => Some t | _ => None
    end
  else if (k =? "title")%string then
    match v with
    | JString s => Some (with_Title t s) | JNull => Some t | _ => None
    end
  else if (k =? "description")%string then
    match v with
    | JString s => Some (SetDescription t s)
    | JNull => Some (ClearDescription t)
    | _ => None
    end
  else if (k =? "assignee")%string then
    match v with
    | JString s => Some (SetAssignee t s)
    | JNull => Some (ClearAssignee t)
    | _ => None
    end
  else if (k =? "completed")%string then
    match v with
    | JBool b => Some (with_Completed t b) | JNull => Some t | _ => None
    end
  else if (k =? "due_date")%string then
    match v with
    | JTime d => Some (with_DueDate t (mkNullTime d true))
    | JNull => Some (ClearDueDate t)
    | _ => None
    end
  else if (k =? "created_at")%string then
    match v with
    | JTime d => Some (with_CreatedAt t d) | JNull => Some t | _ => None
    end
  else if (k =? "updated_at")%string then
    match v with
    | JTime d => Some (with_UpdatedAt t d) | JNull => Some t | _ => None
    end
  else Some t.

Fixpoint unmarshalMembers (t : Task) (ms : list (string * json)) : option Task :=
  match ms with
  | [] => Some t
  | m :: ms' =>
      match unmarshalMember t m with
      | Some t' => unmarshalMembers t' ms'
      | None => None
      end
  end.

Definition unmarshalTask (j : json) : option Task :=
  match j with
  | JObject ms => unmarshalMembers zeroTask ms
  | JNull => Some zeroTask
  | _ => None
  end.

Fixpoint unmarshalTasks (js : list json) : option (list Task) :=
  match js with
  | [] => Some []
  | j :: js' =>
      match unmarshalTask j, unmarshalTasks js' with
      | Some t, Some ts => Some (t :: ts)
      | _, _ => None
      end
  end.

(** [json.Unmarshal([]byte(s), &cached)] for a [[]model.Task]. *)
Definition Unmarshal (j : json) : option (list Task) :=
  match j with
  | JNull => Some []
  | JArray js => unmarshalTasks js
  | _ => None
  end.

End JSON.

(** ** The relational store: table [tasks] *)

Module SQL.
Import Model.

(** A row of [tasks]; the nullable columns are options. *)
Record Row : Type := mkRow {
  r_id : string;
  r_title : string;
  r_description : option string;
  r_assignee : option string;
  r_completed : bool;
  r_due_date : option Time;
  r_created_at : Time;
  r_updated_at : Time
}.

(** [sql.NullString.Value] and [sql.NullString.Scan] *)
Definition NullString_Value (v : NullString) : option string :=
  if ns_Valid v then Some (ns_String v) else None.
Definition NullString_Scan (v : option string) : NullString :=
  match v with
  | Some s => mkNullString s true
  | None => mkNullString "" false
  end.

(** [sql.NullTime.Value] and [sql.NullTime.Scan] *)
Definition NullTime_Value (v : NullTime) : option Time :=
  if nt_Valid v then Some (nt_Time v) else None.
Definition NullTime_Scan (v : option Time) : NullTime :=
  match v with
  | Some t => mkNullTime t true
  | None => mkNullTime zeroTime false
  end.

(** The named parameters [:id], [:title], ... of a statement, bound from
    the [db] tags of a [Task]. *)
Definition bindTask (t : Task) : Row :=
  mkRow (ID t) (Title t) (NullString_Value (Description t))
        (NullString_Value (Assignee t)) (Completed t)
        (NullTime_Value (DueDate t)) (CreatedAt t) (UpdatedAt t).

(** Scanning a selected row into a [Task]. *)
Definition scanRow (r : Row) : Task :=
  mkTask (r_id r) (r_title r) (NullString_Scan (r_description r))
         (NullString_Scan (r_assignee r)) (r_completed r)
         (NullTime_Scan (r_due_date r)) (r_created_at r) (r_updated_at r).

Definition has_id (id : string) (r : Row) : bool := (r_id r =? id)%string.

(** [INSERT INTO tasks (...) VALUES (...)]: [None] on a duplicate key. *)
Definition insert (tbl : list Row) (new : Row) : option (list Row) :=
  if existsb (has_id (r_id new)) tbl then None else Some (tbl ++ [new])%list.

(** [SELECT ... FROM tasks WHERE id = $1], first row. *)
Definition select_by_id (tbl : list Row) (id : string) : option Row :=
  List.find (has_id id) tbl.

(** Trigger [trg_tasks_set_updated_at], before update, for each row:
    [NEW.updated_at = now()]. *)
Definition trg_set_updated_at (now : Time) (new : Row) : Row :=
  mkRow (r_id new) (r_title new) (r_description new) (r_assignee new)
        (r_completed new) (r_due_date new) (r_created_at new) now.

(** [UPDATE tasks SET title = :title, description = :description,
    completed = :completed, due_date = :due_date, updated_at = :updated_at
    WHERE id = :id]: the new table and the number of rows affected. *)
Definition update_row (p : Row) (now : Time) (r : Row) : Row :=
  if has_id (r_id p) r
  then trg_set_updated_at now
         (mkRow (r_id r) (r_title p) (r_description p) (r_assignee r)
                (r_completed p) (r_due_date p) (r_created_at r)
                (r_updated_at p))
  else r.

Definition update (tbl : list Row) (p : Row) (now : Time) : list Row * Z :=
  (List.map (update_row p now) tbl,
   Z.of_nat (length (List.filter (has_id (r_id p)) tbl))).

(** [DELETE FROM tasks WHERE id = $1]: the new table and the number of
    rows affected. *)
Definition delete (tbl : list Row) (id : string) : list Row * Z :=
  (List.filter (fun r => negb (has_id id r)) tbl,
   Z.of_nat (length (List.filter (has_id id) tbl))).

(** [SELECT count(1) FROM tasks WHERE ...] *)
Definition count (cond : Row -> bool) (tbl : list Row) : Z :=
  Z.of_nat (length (List.filter cond tbl)).

(** [ORDER BY created_at DESC]; rows with equal [created_at] keep their
    insertion order. *)
Fixpoint insert_desc (r : Row) (l : list Row) : list Row :=
  match l with
  | [] => [r]
  | x :: l' =>
      if r_created_at x <=? r_created_at r then r :: l
      else x :: insert_desc r l'
  end.

Definition order_by_created_at_desc (l : list Row) : list Row :=
  List.fold_right insert_desc [] l.

(** [SELECT ... FROM tasks WHERE ... ORDER BY created_at DESC
    LIMIT $n OFFSET $m] *)
Definition select (cond : Row -> bool) (limit offset : Z)
           (tbl : list Row) : list Row :=
  take (Z.to_nat limit)
       (drop (Z.to_nat offset)
             (order_by_created_at_desc (List.filter cond tbl))).

(** The conditions of the statements. *)
Definition completed_is (c : bool) (r : Row) : bool :=
  Bool.eqb (r_completed r) c.
Definition assignee_is (a : string) (r : Row) : bool :=
  match r_assignee r with
  | Some x => (x =? a)%string
  | None => false
  end.

End SQL.

(** ** The cache *)

Module Redis.

(** An entry is a document and the instant at which it expires. *)
Abbreviation Client := (gmap string (json * Time)).

(** [GET key]: [None] is [redis.Nil]. *)
Definition Get (c : Client) (now : Time) (key : string) : option json :=
  match c !! key with
  | Some (v, expiry) => if now <? expiry then Some v else None
  | None => None
  end.

(** [SET key value EX ttl] *)
Definition Set_ (c : Client) (now : Time) (key : string) (value : json)
           (ttl : Z) : Client :=
  <[key := (value, now + ttl)]> c.

(** [DEL key] *)
Definition Del (c : Client) (key : string) : Client :=
  base.delete key c.

(** Glob matching for patterns made of literal characters and a final
    [*]. *)
Fixpoint glob (pattern key : string) : bool :=
  match pattern with
  | EmptyString => match key with EmptyString => true | _ => false end
  | String p pattern' =>
      if (Ascii.eqb p "*" && (pattern' =? "")%string)%bool then true
      else match key with
           | EmptyString => false
           | String k key' => Ascii.eqb p k && glob pattern' key'
           end
  end.

(** [SCAN 0 MATCH pattern COUNT 100], iterated to the end: every key that
    matches. *)
Definition Scan (c : Client) (pattern : string) : list string :=
  List.filter (glob pattern) (List.map fst (map_to_list c)).

End Redis.

(** ** Package repositories *)

Module Repositories.
Import Model.

Record taskRepo : Type := mkTaskRepo {
  db : list SQL.Row;
  rdb : option Redis.Client
}.

Definition NewTaskRepository (tbl : list SQL.Row) : taskRepo :=
  mkTaskRepo tbl None.

Definition SetCacheClient (r : taskRepo) (c : option Redis.Client) : taskRepo :=
  mkTaskRepo (db r) c.

Definition cacheKeyForList (limit offset : Z) (completed : option bool)
           (assignee : option string) : string :=
  let compVal := match completed with
                 | Some b => Fmt.Sprintf_v b
                 | None => "any"
                 end in
  let assVal := match assignee with
                | Some s => s
                | None => "any"
                end in
  "tasks:list:limit=" +:+ Fmt.Sprintf_d limit +:+ ":offset="
    +:+ Fmt.Sprintf_d offset +:+ ":completed=" +:+ compVal
    +:+ ":assignee=" +:+ assVal.

Definition invalidateListCache (r : taskRepo) : taskRepo :=
  match rdb r with
  | None => r
  | Some c =>
      let pattern := "tasks:list:*" in
      mkTaskRepo (db r)
                 (Some (List.fold_left Redis.Del (Redis.Scan c pattern) c))
  end.

(** [Create]: the error, or the task as the call leaves it behind the
    pointer, and the repository afterwards. *)
Definition Create (r : taskRepo) (uuid : string) (now : Time)
           (task : option Task) : result Task * taskRepo :=
  match task with
  | None => (Err ErrTaskIsNil, r)
  | Some task =>
      let task := if (ID task =? "")%string then with_ID task uuid else task in
      let now := UTC now in
      let task := with_CreatedAt task now in
      let task := with_UpdatedAt task now in
      match SQL.insert (db r) (SQL.bindTask task) with
      | None => (Err ErrUniqueViolation, r)
      | Some tbl => (Ok task, invalidateListCache (mkTaskRepo tbl (rdb r)))
      end
  end.

Definition GetByID (r : taskRepo) (id : string) : result Task :=
  match SQL.select_by_id (db r) id with
  | Some row => Ok (SQL.scanRow row)
  | None => Err ErrNotFound
  end.

(** [p == nil] *)
Definition isNil {A : Type} (p : option A) : bool :=
  match p with
  | None => true
  | Some _ => false
  end.

(** [assignee == nil || *assignee == ""] *)
Definition nilOrEmpty (assignee : option string) : bool :=
  match assignee with
  | None => true
  | Some a => (a =? "")%string
  end.

(** The condition of the statement [List] builds; [*completed] and
    [*assignee] are read only where the pointer is not nil. *)
Definition listWhere (completed : option bool) (assignee : option string)
  : SQL.Row -> bool :=
  if isNil completed && nilOrEmpty assignee then
    fun _ => true
  else if negb (isNil completed) && nilOrEmpty assignee then
    SQL.completed_is (default false completed)
  else if isNil completed && negb (isNil assignee) then
    SQL.assignee_is (default "" assignee)
  else
    fun r => SQL.completed_is (default false completed) r
             && SQL.assignee_is (default "" assignee) r.

(** The part of [List] that queries the store. *)
Definition listFromDB (tbl : list SQL.Row) (limit offset : Z)
           (completed : option bool) (assignee : option string) : list Task :=
  let limit := if limit <=? 0 then 100 else limit in
  let offset := if offset <? 0 then 0 else offset in
  List.map SQL.scanRow
           (SQL.select (listWhere completed assignee) limit offset tbl).

(** The cache read at the head of [List]. *)
Definition cachedList (r : taskRepo) (now : Time) (cacheKey : string)
  : option (list Task) :=
  match rdb r with
  | None => None
  | Some c =>
      match Redis.Get c now cacheKey with
      | Some s => JSON.Unmarshal s
      | None => None
      end
  end.

Definition List_ (r : taskRepo) (now : Time) (limit offset : Z)
           (completed : option bool) (assignee : option string)
  : result (list Task) * taskRepo :=
  let cacheKey := cacheKeyForList limit offset completed assignee in
  match cachedList r now cacheKey with
  | Some cached => (Ok cached, r)
  | None =>
      let tasks := listFromDB (db r) limit offset completed assignee in
      let r' :=
        match rdb r with
        | None => r
        | Some c =>
            match JSON.Marshal tasks with
            | Some b =>
                mkTaskRepo (db r)
                           (Some (Redis.Set_ c now cacheKey b (60 * Second)))
            | None => r
            end
        end in
      (Ok tasks, r')
  end.

(** [Update]: the error, if any, and the repository afterwards. *)
Definition Update (r : taskRepo) (now : Time) (task : option Task)
  : option error * taskRepo :=
  match task with
  | None => (Some ErrTaskIsNil, r)
  | Some task =>
      let task := with_UpdatedAt task now in
      let (tbl, ra) := SQL.update (db r) (SQL.bindTask task) now in
      if ra =? 0 then (Some ErrNotFound, mkTaskRepo tbl (rdb r))
      else (None, invalidateListCache (mkTaskRepo tbl (rdb r)))
  end.

(** [Delete]: whether a row was deleted, and the repository afterwards. *)
Definition Delete (r : taskRepo) (id : string) : result bool * taskRepo :=
  let (tbl, ra) := SQL.delete (db r) id in
  let deleted := 0 <? ra in
  if deleted then (Ok true, invalidateListCache (mkTaskRepo tbl (rdb r)))
  else (Ok false, mkTaskRepo tbl (rdb r)).

Definition Count (r : taskRepo) : result Z :=
  Ok (SQL.count (fun _ => true) (db r)).

(** The condition of the statement [CountFiltered] runs. *)
Definition countWhere (completed : option bool) (assignee : option string)
  : SQL.Row -> bool :=
  if isNil completed && nilOrEmpty assignee then
    (* No filters: simple count *)
    fun _ => true
  else if negb (isNil completed) && nilOrEmpty assignee then
    (* Filter by completed only *)
    SQL.completed_is (default false completed)
  else if isNil completed && negb (isNil assignee) then
    (* Filter by assignee only *)
    SQL.assignee_is (default "" assignee)
  else
    (* Both filters present *)
    fun r => SQL.completed_is (default false completed) r
             && SQL.assignee_is (default "" assignee) r.

Definition CountFiltered (r : taskRepo) (completed : option bool)
           (assignee : option string) : result Z :=
  Ok (SQL.count (countWhere completed assignee) (db r)).

End Repositories.

(** ** Package service *)

Module Service.
Import Model.

Definition Create (r : Repositories.taskRepo) (uuid : string) (now : Time)
           (task : Task) : result Task * Repositories.taskRepo :=
  let task := with_Title task (GoStrings.TrimSpace (Title task)) in
  if (Title task =? "")%string then (Err ErrInvalidInput, r)
  else
    match Repositories.Create r uuid now (Some task) with
    | (Err e, r') => (Err e, r')
    | (Ok task, r') => (Ok task, r')
    end.

Definition GetByID (r : Repositories.taskRepo) (id : string) : result Task :=
  match Repositories.GetByID r id with
  | Err e => Err e
  | Ok t => Ok t
  end.

Definition List_ (r : Repositories.taskRepo) (now : Time) (limit offset : Z)
           (completed : option bool) (assignee : option string)
  : result (list Task * Z) * Repositories.taskRepo :=
  match Repositories.List_ r now limit offset completed assignee with
  | (Err e, r') => (Err e, r')
  | (Ok tasks, r') =>
      match Repositories.CountFiltered r' completed assignee with
      | Err e => (Err e, r')
      | Ok total => (Ok (tasks, total), r')
      end
  end.

Definition Update (r : Repositories.taskRepo) (now : Time) (task : Task)
  : result Task * Repositories.taskRepo :=
  match Repositories.GetByID r (ID task) with
  | Err e => (Err e, r)
  | Ok t =>
      let merged :=
        if negb (Title task =? "")%string then
          let tt := GoStrings.TrimSpace (Title task) in
          if (tt =? "")%string then Err ErrInvalidInput
          else Ok (with_Title t tt)
        else Ok t in
      match merged with
      | Err e => (Err e, r)
      | Ok t =>
          match Repositories.Update r now (Some t) with
          | (Some e, r') => (Err e, r')
          | (None, r') =>
              match Repositories.GetByID r' (ID task) with
              | Err e => (Err e, r')
              | Ok updated => (Ok updated, r')
              end
          end
      end
  end.

Definition Delete (r : Repositories.taskRepo) (id : string)
  : option error * Repositories.taskRepo :=
  match Repositories.Delete r id with
  | (Err e, r') => (Some e, r')
  | (Ok ok, r') =>
      if negb ok then (Some ErrNotFound, r') else (None, r')
  end.

Definition Count (r : Repositories.taskRepo) : result Z :=
  Repositories.Count r.

End Service.

(** ** Package handler *)

Module Handler.
Import Model DTOs.

Inductive response : Type :=
| StatusBadRequest
| StatusNotFound
| StatusInternalServerError
| StatusCreated (body : Task)
| StatusOK (body : Task)
| StatusNoContent.

(** [POST /tasks]; the binding rejects a body whose [title] is missing or
    empty ([binding:"required"]). *)
Definition CreateTask (r : Repositories.taskRepo) (uuid : string)
           (now : Time) (dto : CreateTaskDTO)
  : response * Repositories.taskRepo :=
  if (c_Title dto =? "")%string then (StatusBadRequest, r)
  else
    let tmodel := CreateTaskDTO_ToModel dto in
    match Service.Create r uuid now tmodel with
    | (Err ErrInvalidInput, r') => (StatusBadRequest, r')
    | (Err _, r') => (StatusInternalServerError, r')
    | (Ok task, r') => (StatusCreated task, r')
    end.

(** [GET /tasks/:id] *)
Definition GetTask (r : Repositories.taskRepo) (id : string) : response :=
  if (id =? "")%string then StatusBadRequest
  else
    match Service.GetByID r id with
    | Err ErrNotFound => StatusNotFound
    | Err _ => StatusInternalServerError
    | Ok t => StatusOK t
    end.

(** [PUT /tasks/:id] *)
Definition UpdateTask (r : Repositories.taskRepo) (now : Time) (id : string)
           (dto : UpdateTaskDTO) : response * Repositories.taskRepo :=
  if (id =? "")%string then (StatusBadRequest, r)
  else
    let tmodel := UpdateTaskDTO_ToModel dto id in
    match Service.Update r now tmodel with
    | (Err ErrInvalidInput, r') => (StatusBadRequest, r')
    | (Err ErrNotFound, r') => (StatusNotFound, r')
    | (Err _, r') => (StatusInternalServerError, r')
    | (Ok updated, r') => (StatusOK updated, r')
    end.

(** [DELETE /tasks/:id] *)
Definition DeleteTask (r : Repositories.taskRepo) (id : string)
  : response * Repositories.taskRepo :=
  if (id =? "")%string then (StatusBadRequest, r)
  else
    match Service.Delete r id with
    | (Some ErrNotFound, r') => (StatusNotFound, r')
    | (Some _, r') => (StatusInternalServerError, r')
    | (None, r') => (StatusNoContent, r')
    end.

End Handler.

(** ** Vocabulary of the properties *)

Module Spec.
Import Model SQL Repositories.

(** The title [Service.Update] writes for a stored row and a partial
    task. *)
Definition mergedTitle (task : Task) (row : Row) : string :=
  if (Title task =? "")%string then r_title row
  else GoStrings.TrimSpace (Title task).

(** The row [Service.Update] leaves in the table in place of [row]. *)
Definition updatedRow (task : Task) (now : Time) (row : Row) : Row :=
  mkRow (r_id row) (mergedTitle task row) (r_description row)
        (r_assignee row) (r_completed row) (r_due_date row)
        (r_created_at row) now.

(** The task [Service.Create] hands back: trimmed title, identifier and
    both timestamps assigned. *)
Definition createdTask (task : Task) (uuid : string) (now : Time) : Task :=
  let task := with_Title task (GoStrings.TrimSpace (Title task)) in
  let task := if (ID task =? "")%string then with_ID task uuid else task in
  with_UpdatedAt (with_CreatedAt task (UTC now)) (UTC now).

(** The title passes the check of [Service.Update]. *)
Definition titleAccepted (task : Task) : Prop :=
  Title task = "" \/ GoStrings.TrimSpace (Title task) <> "".

(** The tasks of the store, as a reader receives them. *)
Definition storedTasks (r : taskRepo) : list Task :=
  List.map scanRow (db r).

(** The filter semantics in the words of the specification: an absent
    filter, and an empty assignee filter, accept every task; a completed
    filter accepts the tasks with that flag; an assignee filter accepts the
    tasks assigned to that name. *)
Definition matchesFilters (completed : option bool)
           (assignee : option string) (t : Task) : bool :=
  match completed with
  | None => true
  | Some c => Bool.eqb (Completed t) c
  end
  && match assignee with
     | None => true
     | Some a =>
         if (a =? "")%string then true
         else ns_Valid (Assignee t) && (ns_String (Assignee t) =? a)%string
     end.

(** The text a filter on the assignee contributes to the cache key. *)
Definition assVal (assignee : option string) : string :=
  match assignee with
  | Some s => s
  | None => "any"
  end.

(** A string without a colon. *)
Fixpoint noColon (s : string) : bool :=
  match s with
  | EmptyString => true
  | String c r => negb (Ascii.eqb c ":") && noColon r
  end.

(** A store with two tasks and an empty cache attached. *)
Definition twoTasksCached : taskRepo :=
  mkTaskRepo [mkRow "a" "one" None (Some "bob") false None 5 5;
              mkRow "b" "two" None None true None 6 6] (Some ∅).

(** No entry of the list-cache namespace is left in the cache. *)
Definition listCacheEmpty (r : taskRepo) : Prop :=
  forall c k,
    rdb r = Some c -> Redis.glob "tasks:list:*" k = true -> c !! k = None.

(** Every [List], whatever its arguments and the instant, answers with
    what the store holds. *)
Definition listsReadStore (r : taskRepo) : Prop :=
  forall now limit offset completed assignee,
    fst (List_ r now limit offset completed assignee)
    = Ok (listFromDB (db r) limit offset completed assignee).

(** A store with two tasks and no cache attached. *)
Definition twoTasks : taskRepo :=
  mkTaskRepo [mkRow "a" "one" None (Some "bob") false None 5 5;
              mkRow "b" "two" None None true None 6 6] None.

(** A store with one task and a cache that holds two list results (for
    different filters) and one entry outside the list namespace. *)
Definition cachedRepo : taskRepo :=
  mkTaskRepo
    [mkRow "a" "old" (Some "text") (Some "bob") false None 5 5]
    (Some (<["tasks:list:limit=100:offset=0:completed=any:assignee=any"
             := (JNull, 1000)]>
           (<["tasks:list:limit=10:offset=0:completed=true:assignee=bob"
              := (JNull, 1000)]>
            (<["other" := (JNull, 1000)]> ∅)))).

(** A store with one task and no cache attached, for concrete runs. *)
Definition oneTask : taskRepo :=
  mkTaskRepo [mkRow "a" "old" (Some "text") (Some "bob") false None 5 5] None.

(** A call of the service interface. *)
Inductive call : Type :=
| CallCreate (uuid : string) (task : Task)
| CallGetByID (id : string)
| CallList (limit offset : Z) (completed : option bool)
           (assignee : option string)
| CallUpdate (task : Task)
| CallDelete (id : string)
| CallCount.

(** The repository after a call made at the instant [now]. *)
Definition step (r : taskRepo) (now : Time) (c : call) : taskRepo :=
  match c with
  | CallCreate uuid task => snd (Service.Create r uuid now task)
  | CallGetByID _ => r
  | CallList limit offset completed assignee =>
      snd (Service.List_ r now limit offset completed assignee)
  | CallUpdate task => snd (Service.Update r now task)
  | CallDelete id => snd (Service.Delete r id)
  | CallCount => r
  end.

(** The repository after a sequence of calls, each with the instant at
    which it is made. *)
Fixpoint run (r : taskRepo) (calls : list (Time * call)) : taskRepo :=
  match calls with
  | [] => r
  | (now, c) :: rest => run (step r now c) rest
  end.

(** The clock never goes backwards: each call is made no earlier than the
    one before it. *)
Fixpoint clockMonotone (start : Time) (calls : list (Time * call)) : Prop :=
  match calls with
  | [] => True
  | (now, _) :: rest => start <= now /\ clockMonotone now rest
  end.

(** Every row was updated no earlier than it was created, and no later
    than [clock]. *)
Definition timestampsOrdered (clock : Time) (tbl : list Row) : Prop :=
  forall row, In row tbl ->
              r_created_at row <= r_updated_at row /\ r_updated_at row <= clock.

(** Some calls, made at instants that do not decrease. *)
Definition someCalls : list (Time * call) :=
  [(5, CallCreate "u1" (with_Title zeroTask " x "));
   (7, CallUpdate (with_Title (with_ID zeroTask "u1") "y"));
   (7, CallList 10 0 None None);
   (9, CallDelete "nope")].

(** A task as the store hands it out: a null field holds the zero value
    of its type. *)
Definition normalString (v : NullString) : Prop :=
  ns_Valid v = false -> ns_String v = "".
Definition normalTime (v : NullTime) : Prop :=
  nt_Valid v = false -> nt_Time v = zeroTime.
Definition normalised (t : Task) : Prop :=
  normalString (Description t) /\ normalString (Assignee t)
  /\ normalTime (DueDate t).

End Spec.

(** ** Go library functions used by the list handler *)

Module Strconv.

(** The decimal digits of [s], read onto [acc]; [None] at the first byte
    that is not a digit. *)
Fixpoint digits (s : string) (acc : Z) : option Z :=
  match s with
  | EmptyString => Some acc
  | String c r =>
      let d := Z.of_N (GoStrings.byte c) - 48 in
      if (0 <=? d) && (d <=? 9) then digits r (acc * 10 + d) else None
  end.

(** Bounds of a 64-bit [int]. *)
Definition minInt : Z := - 2 ^ 63.
Definition maxInt : Z := 2 ^ 63 - 1.

(** [strconv.Atoi]: an optional sign followed by one or more decimal
    digits, the value within the range of [int]; [None] is an error. *)
Definition Atoi (s : string) : option Z :=
  match s with
  | EmptyString => None
  | String c r =>
      let neg := Ascii.eqb c "-" in
      let body := if neg || Ascii.eqb c "+" then r else s in
      match body with
      | EmptyString => None
      | _ =>
          match digits body 0 with
          | Some n =>
              let v := if neg then - n else n in
              if (minInt <=? v) && (v <=? maxInt) then Some v else None
          | None => None
          end
      end
  end.

(** [strconv.ParseBool]; [None] is an error. *)
Definition ParseBool (str : string) : option bool :=
  if existsb (String.eqb str) ["1"; "t"; "T"; "TRUE"; "true"; "True"]
  then Some true
  else if existsb (String.eqb str) ["0"; "f"; "F"; "FALSE"; "false"; "False"]
  then Some false
  else None.

(** [strconv.Itoa] *)
Definition Itoa (n : Z) : string := Fmt.Sprintf_d n.

End Strconv.

(** ** Package handler: the list endpoint *)

Module ListHandler.
Import Model.

(** The query parameters as [c.Query] returns them: the empty string for
    an absent parameter. *)
Record query : Type := mkQuery {
  q_limit : string;
  q_offset : string;
  q_completed : string;
  q_assignee : string
}.

(** The answers of [ListTasks]: the status and, for 200, the header
    [X-Total-Count] and the fields of the body. *)
Inductive response : Type :=
| StatusBadRequest
| StatusInternalServerError
| StatusOK (xTotalCount : string) (items : list Task) (limit offset total : Z).

(** The [limit] the handler settles on. *)
Definition limitOf (q : query) : Z :=
  let limit := 100 in
  if negb (q_limit q =? "")%string then
    match Strconv.Atoi (q_limit q) with
    | Some v => if 0 <? v then v else limit
    | None => limit
    end
  else limit.

(** The [offset] the handler settles on. *)
Definition offsetOf (q : query) : Z :=
  let offset := 0 in
  if negb (q_offset q =? "")%string then
    match Strconv.Atoi (q_offset q) with
    | Some v => if 0 <=? v then v else offset
    | None => offset
    end
  else offset.

(** The [completed] filter: [None] when the parameter does not parse. *)
Definition completedOf (q : query) : option (option bool) :=
  if negb (q_completed q =? "")%string then
    match Strconv.ParseBool (q_completed q) with
    | Some v => Some (Some v)
    | None => None
    end
  else Some None.

(** The [assignee] filter. *)
Definition assigneeOf (q : query) : option string :=
  if negb (q_assignee q =? "")%string then Some (q_assignee q) else None.

(** [GET /tasks] *)
Definition ListTasks (r : Repositories.taskRepo) (now : Time) (q : query)
  : response * Repositories.taskRepo :=
  let limit := limitOf q in
  let offset := offsetOf q in
  match completedOf q with
  | None => (StatusBadRequest, r)
  | Some completed =>
      let assignee := assigneeOf q in
      match Service.List_ r now limit offset completed assignee with
      | (Err _, r') => (StatusInternalServerError, r')
      | (Ok (items, total), r') =>
          (StatusOK (Strconv.Itoa total) items limit offset total, r')
      end
  end.

End ListHandler.

(** ** Package metric: the gauge [tasks_count]

    The gauge holds a [float64] that only ever receives counts and steps of
    one; it is represented by the integer it holds. *)

Module Metric.

Definition SetTasksCount (n : Z) : Z := n.

Definition IncTaskCount (gauge : Z) : Z := gauge + 1.

Definition DecTaskCount (gauge : Z) : Z := gauge - 1.

(** [UpdateTasksCountFromDB]: the gauge is set from [SELECT count(1) FROM
    tasks]. *)
Definition UpdateTasksCountFromDB (tbl : list SQL.Row) : Z :=
  SetTasksCount (SQL.count (fun _ => true) tbl).

(** The gauge after [taskService.Create]: incremented once the store has
    accepted the task. *)
Definition afterCreate (gauge : Z) (res : result Model.Task) : Z :=
  match res with
  | Ok _ => IncTaskCount gauge
  | Err _ => gauge
  end.

(** The gauge after [taskService.Delete]: decremented once a row has been
    removed. *)
Definition afterDelete (gauge : Z) (res : option error) : Z :=
  match res with
  | None => DecTaskCount gauge
  | Some _ => gauge
  end.

End Metric.

(** ** Further vocabulary *)

Module Props.
Import Model SQL Repositories Spec.

(** No two rows share an identifier. *)
Definition uniqueIds (tbl : list Row) : Prop :=
  NoDup (List.map r_id tbl).

(** Every row has a title that is not empty. *)
Definition titlesNonEmpty (tbl : list Row) : Prop :=
  forall row, In row tbl -> r_title row <> "".

(** Rows in the order of [ORDER BY created_at DESC]. *)
Definition newerFirst (x y : Row) : Prop := r_created_at y <= r_created_at x.

(** A listing ordered by creation time, most recent first. *)
Definition mostRecentFirst (l : list Task) : Prop :=
  StronglySorted (fun x y => CreatedAt y <= CreatedAt x) l.

(** The limit and offset [List] runs its statement with. *)
Definition effectiveLimit (limit : Z) : Z := if limit <=? 0 then 100 else limit.
Definition effectiveOffset (offset : Z) : Z := if offset <? 0 then 0 else offset.

(** The gauge after a call. *)
Definition stepGauge (r : taskRepo) (gauge : Z) (now : Time) (c : call) : Z :=
  match c with
  | CallCreate uuid task =>
      Metric.afterCreate gauge (fst (Service.Create r uuid now task))
  | CallDelete id =>
      Metric.afterDelete gauge (fst (Service.Delete r id))
  | _ => gauge
  end.

(** The gauge after a sequence of calls. *)
Fixpoint runGauge (r : taskRepo) (gauge : Z) (calls : list (Time * call)) : Z :=
  match calls with
  | [] => gauge
  | (now, c) :: rest => runGauge (step r now c) (stepGauge r gauge now c) rest
  end.

(** The cache entries outside the list namespace. *)
Definition sameOtherKeys (c c' : gmap string (json * Z)) : Prop :=
  forall k, Redis.glob "tasks:list:*" k = false -> c' !! k = c !! k.

(** Every list entry of the cache is the current listing of the store for
    arguments that have its key and do not filter on the assignee
    ["any"]. *)
Definition freshEntries (r : taskRepo) : Prop :=
  forall c k doc expiry,
    rdb r = Some c -> c !! k = Some (doc, expiry) ->
    Redis.glob "tasks:list:*" k = true ->
    exists limit offset completed assignee,
      assignee <> Some "any"
      /\ k = cacheKeyForList limit offset completed assignee
      /\ JSON.Unmarshal doc
         = Some (listFromDB (db r) limit offset completed assignee).

(** A call that does not list with the assignee filter ["any"]. *)
Definition avoidsAny (c : call) : Prop :=
  match c with
  | CallList _ _ _ assignee => assignee <> Some "any"
  | _ => True
  end.

(** Calls that write and list in turn. *)
Definition mixedCalls : list (Time * call) :=
  [(5, CallList 100 0 None None);
   (6, CallCreate "u1" (with_Title zeroTask " x "));
   (7, CallList 100 0 None None);
   (8, CallList 100 0 (Some true) (Some "bob"));
   (9, CallUpdate (with_Title (with_ID zeroTask "a") "renamed"));
   (10, CallList 100 0 None None);
   (11, CallDelete "missing")].

(** Calls that create, rename and delete. *)
Definition moreCalls : list (Time * call) :=
  [(5, CallCreate "u1" (with_Title zeroTask " x "));
   (6, CallCreate "u2" (with_Title zeroTask "y"));
   (6, CallCreate "u1" (with_Title zeroTask "again"));
   (7, CallUpdate (with_Title (with_ID zeroTask "u2") " z "));
   (8, CallUpdate (with_Title (with_ID zeroTask "u2") "   "));
   (9, CallDelete "u1");
   (9, CallDelete "u1")].

(** No two rows were created at the same instant. *)
Definition distinctCreation (tbl : list Row) : Prop :=
  NoDup (List.map r_created_at tbl).

(** An answer the database may give to
    [SELECT ... WHERE cond ORDER BY created_at DESC]: the rows that satisfy
    the condition, each as often as the table holds it, most recent first.
    The statement leaves the order of rows created at the same instant
    open, and so does this relation. *)
Definition orderedAnswer (cond : Row -> bool) (tbl answer : list Row) : Prop :=
  Permutation answer (List.filter cond tbl)
  /\ StronglySorted newerFirst answer.

(** The page [LIMIT limit OFFSET offset] cuts out of an answer, scanned. *)
Definition pageOf (answer : list Row) (limit offset : Z) : list Task :=
  List.map scanRow (take (Z.to_nat limit) (drop (Z.to_nat offset) answer)).

(** A create at which the process clock reads 10, followed by an update at
    which the clock of the database reads 7. *)
Definition skewedCalls : list (Time * call) :=
  [(10, CallCreate "u1" (with_Title zeroTask "x"));
   (7, CallUpdate (with_Title (with_ID zeroTask "u1") "y"))].

End Props.

(* ===================================================================== *)
(** * Properties *)
(* ===================================================================== *)

(** ** White space *)

Module GoStringsFacts.
Import GoStrings.

Lemma dropSpace_allAsciiSpace fwd s :
  allAsciiSpace s = true -> dropSpace fwd s = "".
Proof.
  induction s as [|a s IH]; simpl; [reflexivity|].
  intros H. apply andb_true_iff in H. destruct H as [Ha Hs].
  rewrite Ha. now apply IH.
Qed.

(** A title of ASCII white space only trims to the empty string. *)
Lemma TrimSpace_allAsciiSpace s :
  allAsciiSpace s = true -> TrimSpace s = "".
Proof.
  intros H. unfold TrimSpace, TrimLeftSpace.
  now rewrite dropSpace_allAsciiSpace.
Qed.

End GoStringsFacts.

(** ** The store *)

Module SQLFacts.
Import Model SQL.

Lemma has_id_true id r : has_id id r = true <-> r_id r = id.
Proof. unfold has_id. apply String.eqb_eq. Qed.

Lemma has_id_false id r : has_id id r = false <-> r_id r <> id.
Proof. unfold has_id. apply String.eqb_neq. Qed.

Lemma Value_Scan_string v : NullString_Value (NullString_Scan v) = v.
Proof. destruct v; reflexivity. Qed.

Lemma Value_Scan_time v : NullTime_Value (NullTime_Scan v) = v.
Proof. destruct v; reflexivity. Qed.

(** Binding what was scanned gives the row back. *)
Lemma bind_scan row : bindTask (scanRow row) = row.
Proof.
  destruct row; unfold bindTask, scanRow; simpl.
  now rewrite !Value_Scan_string, Value_Scan_time.
Qed.

(** Scanning what was bound normalises the nullable fields only. *)
Lemma scan_bind_Title t : Title (scanRow (bindTask t)) = Title t.
Proof. reflexivity. Qed.

Lemma select_by_id_Some tbl id row :
  select_by_id tbl id = Some row -> In row tbl /\ r_id row = id.
Proof.
  unfold select_by_id. intros H. apply List.find_some in H.
  destruct H as [Hin Hid]. split; [exact Hin | now apply has_id_true].
Qed.

Lemma select_by_id_None tbl id :
  select_by_id tbl id = None <-> (forall row, In row tbl -> r_id row <> id).
Proof.
  unfold select_by_id. split.
  - intros H row Hin. apply has_id_false.
    exact (List.find_none _ _ H row Hin).
  - induction tbl as [|x tbl IH]; intros H; simpl; [reflexivity|].
    destruct (has_id id x) eqn:E.
    + apply has_id_true in E. exfalso. apply (H x); [now left | exact E].
    + apply IH. intros row Hin. apply H. now right.
Qed.

Lemma update_row_id p now r : r_id (update_row p now r) = r_id r.
Proof. unfold update_row. destruct (has_id (r_id p) r); reflexivity. Qed.

Lemma update_row_created_at p now r :
  r_created_at (update_row p now r) = r_created_at r.
Proof. unfold update_row. destruct (has_id (r_id p) r); reflexivity. Qed.

Lemma update_row_assignee p now r :
  r_assignee (update_row p now r) = r_assignee r.
Proof. unfold update_row. destruct (has_id (r_id p) r); reflexivity. Qed.

Lemma has_id_update_row id p now r :
  has_id id (update_row p now r) = has_id id r.
Proof. unfold has_id. now rewrite update_row_id. Qed.

Lemma select_by_id_update tbl p now id :
  select_by_id (List.map (update_row p now) tbl) id
  = option_map (update_row p now) (select_by_id tbl id).
Proof.
  unfold select_by_id. induction tbl as [|x tbl IH]; simpl; [reflexivity|].
  rewrite has_id_update_row. destruct (has_id id x); [reflexivity | exact IH].
Qed.

Lemma affected_pos tbl id row :
  select_by_id tbl id = Some row ->
  0 < Z.of_nat (length (List.filter (has_id id) tbl)).
Proof.
  intros H. apply select_by_id_Some in H. destruct H as [Hin Hid].
  assert (Hf : In row (List.filter (has_id id) tbl)).
  { apply List.filter_In. split; [exact Hin | now apply has_id_true]. }
  destruct (List.filter (has_id id) tbl); [destruct Hf | simpl; lia].
Qed.

Lemma affected_zero tbl id :
  Z.of_nat (length (List.filter (has_id id) tbl)) = 0 <->
  select_by_id tbl id = None.
Proof.
  unfold select_by_id. induction tbl as [|x tbl IH]; simpl; [tauto|].
  destruct (has_id id x); simpl; [split; [lia | discriminate] | exact IH].
Qed.

Lemma update_untouched tbl p now :
  select_by_id tbl (r_id p) = None ->
  List.map (update_row p now) tbl = tbl.
Proof.
  intros H. rewrite select_by_id_None in H.
  induction tbl as [|x tbl IH]; simpl; [reflexivity|].
  rewrite IH by (intros; apply H; now right). f_equal.
  unfold update_row.
  destruct (has_id (r_id p) x) eqn:E; [|reflexivity].
  apply has_id_true in E. exfalso. apply (H x); [now left | exact E].
Qed.

Lemma delete_untouched tbl id :
  select_by_id tbl id = None ->
  List.filter (fun r => negb (has_id id r)) tbl = tbl.
Proof.
  intros H. rewrite select_by_id_None in H.
  induction tbl as [|x tbl IH]; simpl; [reflexivity|].
  destruct (has_id id x) eqn:E; simpl.
  - apply has_id_true in E. exfalso. apply (H x); [now left | exact E].
  - f_equal. apply IH. intros; apply H; now right.
Qed.

Lemma select_by_id_delete tbl id :
  select_by_id (List.filter (fun r => negb (has_id id r)) tbl) id = None.
Proof.
  apply select_by_id_None. intros row Hin.
  apply List.filter_In in Hin. destruct Hin as [_ Hn].
  apply has_id_false. now destruct (has_id id row).
Qed.

Lemma select_by_id_insert tbl new tbl' :
  insert tbl new = Some tbl' ->
  select_by_id tbl' (r_id new) = Some new.
Proof.
  unfold insert. destruct (existsb (has_id (r_id new)) tbl) eqn:E; [discriminate|].
  intros [= <-]. unfold select_by_id.
  assert (Hnone : List.find (has_id (r_id new)) tbl = None).
  { induction tbl as [|x tbl IH]; simpl in *; [reflexivity|].
    apply orb_false_iff in E. destruct E as [E1 E2].
    rewrite E1. now apply IH. }
  clear E. induction tbl as [|x tbl IH]; simpl in *.
  - assert (has_id (r_id new) new = true) as -> by now apply has_id_true.
    reflexivity.
  - destruct (has_id (r_id new) x); [discriminate | now apply IH].
Qed.

Lemma insert_fresh tbl new :
  select_by_id tbl (r_id new) = None -> insert tbl new = Some (tbl ++ [new])%list.
Proof.
  intros H. unfold insert.
  assert (E : existsb (has_id (r_id new)) tbl = false).
  { rewrite select_by_id_None in H.
    induction tbl as [|x tbl IH]; simpl; [reflexivity|].
    apply orb_false_iff. split.
    - apply has_id_false. apply H. now left.
    - apply IH. intros; apply H; now right. }
  now rewrite E.
Qed.

Lemma insert_desc_length r l : length (insert_desc r l) = S (length l).
Proof.
  induction l as [|x l IH]; simpl; [reflexivity|].
  destruct (r_created_at x <=? r_created_at r); simpl; [reflexivity | now rewrite IH].
Qed.

Lemma order_by_length l : length (order_by_created_at_desc l) = length l.
Proof.
  induction l as [|x l IH]; simpl; [reflexivity|].
  unfold order_by_created_at_desc in *. now rewrite insert_desc_length, IH.
Qed.

Lemma insert_desc_filter_length f r l :
  length (List.filter f (insert_desc r l))
  = length (List.filter f (r :: l)).
Proof.
  induction l as [|x l IH]; simpl; [reflexivity|].
  destruct (r_created_at x <=? r_created_at r); [reflexivity|].
  simpl in *. destruct (f x), (f r); simpl in *; lia.
Qed.

(** Ordering does not change how many rows satisfy a condition. *)
Lemma order_by_filter_length f l :
  length (List.filter f (order_by_created_at_desc l))
  = length (List.filter f l).
Proof.
  unfold order_by_created_at_desc.
  induction l as [|x l IH]; simpl; [reflexivity|].
  rewrite insert_desc_filter_length. simpl.
  destruct (f x); simpl; now rewrite IH.
Qed.

End SQLFacts.

(** ** The cache and its invalidation *)

Module CacheFacts.
Import Model Repositories.

Lemma fold_Del_None ks (c : Redis.Client) k :
  c !! k = None -> List.fold_left Redis.Del ks c !! k = None.
Proof.
  revert c. induction ks as [|x ks IH]; intros c H; [exact H|].
  simpl. apply IH. unfold Redis.Del.
  destruct (decide (x = k)) as [->|Hne].
  - apply lookup_delete_eq.
  - now rewrite lookup_delete_ne.
Qed.

Lemma fold_Del_In ks (c : Redis.Client) k :
  In k ks -> List.fold_left Redis.Del ks c !! k = None.
Proof.
  revert c. induction ks as [|x ks IH]; intros c Hin; [destruct Hin|].
  simpl. destruct Hin as [->|Hin]; [|now apply IH].
  apply fold_Del_None. apply lookup_delete_eq.
Qed.

Lemma fold_Del_not_In ks (c : Redis.Client) k :
  ~ In k ks -> List.fold_left Redis.Del ks c !! k = c !! k.
Proof.
  revert c. induction ks as [|x ks IH]; intros c Hk; [reflexivity|].
  simpl. rewrite IH by (intros Hin; apply Hk; now right).
  unfold Redis.Del. apply lookup_delete_ne. intros ->. apply Hk. now left.
Qed.

Lemma Scan_spec (c : Redis.Client) pattern k :
  In k (Redis.Scan c pattern) <->
  Redis.glob pattern k = true /\ is_Some (c !! k).
Proof.
  unfold Redis.Scan. rewrite List.filter_In, List.in_map_iff. split.
  - intros [[[k' v] [Hk Hin]] Hg]. simpl in Hk. subst k'. split; [exact Hg|].
    exists v. apply elem_of_map_to_list. now apply list_elem_of_In.
  - intros [Hg [v Hv]]. split; [|exact Hg].
    exists (k, v). split; [reflexivity|].
    apply list_elem_of_In. now apply elem_of_map_to_list.
Qed.

(** Every key [List] uses lies in the namespace the invalidation scans. *)
Lemma cacheKey_in_namespace limit offset completed assignee :
  Redis.glob "tasks:list:*" (cacheKeyForList limit offset completed assignee)
  = true.
Proof. reflexivity. Qed.

Lemma invalidate_db r : db (invalidateListCache r) = db r.
Proof. unfold invalidateListCache. destruct (rdb r); reflexivity. Qed.

Lemma invalidate_rdb_None r : rdb r = None -> rdb (invalidateListCache r) = None.
Proof. unfold invalidateListCache. intros H. rewrite H. exact H. Qed.

(** After the invalidation no key of the namespace is left. *)
Lemma invalidate_removes r c' k :
  rdb (invalidateListCache r) = Some c' ->
  Redis.glob "tasks:list:*" k = true ->
  c' !! k = None.
Proof.
  unfold invalidateListCache. intros H Hg.
  destruct (rdb r) as [c|] eqn:E.
  - injection H as <-.
    destruct (c !! k) as [v|] eqn:Hk.
    + apply fold_Del_In. apply Scan_spec. split; [exact Hg | now exists v].
    + rewrite fold_Del_not_In; [exact Hk|].
      intros Hin. apply Scan_spec in Hin. destruct Hin as [_ [v Hv]].
      congruence.
  - rewrite E in H. discriminate.
Qed.

(** Keys outside the namespace are kept. *)
Lemma invalidate_keeps r c c' k :
  rdb r = Some c ->
  rdb (invalidateListCache r) = Some c' ->
  Redis.glob "tasks:list:*" k = false ->
  c' !! k = c !! k.
Proof.
  unfold invalidateListCache. intros E H Hg. rewrite E in H.
  injection H as <-.
  apply fold_Del_not_In. intros Hin. apply Scan_spec in Hin.
  destruct Hin as [Hg' _]. rewrite Hg in Hg'. discriminate.
Qed.

Lemma cachedList_invalidated r now limit offset completed assignee :
  cachedList (invalidateListCache r) now
             (cacheKeyForList limit offset completed assignee) = None.
Proof.
  unfold cachedList.
  destruct (rdb (invalidateListCache r)) as [c'|] eqn:E; [|reflexivity].
  unfold Redis.Get.
  rewrite (invalidate_removes r c' _ E (cacheKey_in_namespace _ _ _ _)).
  reflexivity.
Qed.

(** A [List] right after the invalidation reads the store. *)
Lemma List_after_invalidate r now limit offset completed assignee :
  fst (List_ (invalidateListCache r) now limit offset completed assignee)
  = Ok (listFromDB (db r) limit offset completed assignee).
Proof.
  unfold List_. rewrite cachedList_invalidated. simpl.
  now rewrite invalidate_db.
Qed.

End CacheFacts.

(** ** The service *)

Module ServiceFacts.
Import Model SQL Repositories Spec SQLFacts.

Lemma updatedRow_fixed task now row :
  update_row (updatedRow task now row) now row = updatedRow task now row.
Proof.
  unfold update_row, updatedRow; simpl.
  assert (has_id (r_id row) row = true) as -> by now apply has_id_true.
  reflexivity.
Qed.

Lemma repo_Update_found r now t row :
  select_by_id (db r) (ID t) = Some row ->
  Repositories.Update r now (Some t)
  = (None,
     invalidateListCache
       (mkTaskRepo
          (List.map (update_row (bindTask (with_UpdatedAt t now)) now) (db r))
          (rdb r))).
Proof.
  intros H. unfold Repositories.Update, SQL.update.
  pose proof (affected_pos _ _ _ H) as Hpos.
  change (r_id (bindTask (with_UpdatedAt t now))) with (ID t).
  destruct (Z.eqb_spec (Z.of_nat (length (List.filter (has_id (ID t)) (db r)))) 0);
    [lia | reflexivity].
Qed.

Lemma repo_Update_missing r now t :
  select_by_id (db r) (ID t) = None ->
  Repositories.Update r now (Some t) = (Some ErrNotFound, r).
Proof.
  intros H. unfold Repositories.Update, SQL.update.
  change (r_id (bindTask (with_UpdatedAt t now))) with (ID t).
  pose proof (proj2 (affected_zero _ _) H) as ->. simpl.
  rewrite update_untouched by exact H. now destruct r.
Qed.

(** [Service.Update] on a stored task whose new title is accepted. *)
Lemma Update_found r now task row :
  select_by_id (db r) (ID task) = Some row ->
  titleAccepted task ->
  Service.Update r now task
  = (Ok (scanRow (updatedRow task now row)),
     invalidateListCache
       (mkTaskRepo (List.map (update_row (updatedRow task now row) now) (db r))
                   (rdb r))).
Proof.
  intros H Hacc.
  pose proof (select_by_id_Some _ _ _ H) as [_ Hid].
  unfold Service.Update, GetByID. rewrite H.
  set (t' := with_Title (scanRow row) (mergedTitle task row)).
  assert (Hm : (if negb (Title task =? "")%string
                then if (GoStrings.TrimSpace (Title task) =? "")%string
                     then Err ErrInvalidInput
                     else Ok (with_Title (scanRow row)
                                         (GoStrings.TrimSpace (Title task)))
                else Ok (scanRow row)) = Ok t').
  { unfold t', mergedTitle.
    destruct (String.eqb_spec (Title task) "") as [E|E]; simpl.
    - now destruct row.
    - destruct Hacc as [Hacc|Hacc]; [contradiction|].
      destruct (String.eqb_spec (GoStrings.TrimSpace (Title task)) "");
        [contradiction | reflexivity]. }
  rewrite Hm.
  assert (Hb : bindTask (with_UpdatedAt t' now) = updatedRow task now row).
  { unfold t', updatedRow, bindTask, with_UpdatedAt, with_Title, scanRow; simpl.
    now rewrite !Value_Scan_string, Value_Scan_time. }
  assert (Hid' : ID t' = ID task) by (unfold t'; simpl; exact Hid).
  rewrite (repo_Update_found r now t' row) by (rewrite Hid'; exact H).
  rewrite Hb, CacheFacts.invalidate_db. cbn [db].
  rewrite select_by_id_update, H. cbn [option_map].
  now rewrite updatedRow_fixed.
Qed.

Lemma Update_missing r now task :
  select_by_id (db r) (ID task) = None ->
  Service.Update r now task = (Err ErrNotFound, r).
Proof. intros H. unfold Service.Update, GetByID. now rewrite H. Qed.

Lemma Update_rejected r now task row :
  select_by_id (db r) (ID task) = Some row ->
  ~ titleAccepted task ->
  Service.Update r now task = (Err ErrInvalidInput, r).
Proof.
  intros H Hrej. unfold Service.Update, GetByID. rewrite H.
  unfold titleAccepted in Hrej.
  destruct (String.eqb_spec (Title task) "") as [E|E]; [tauto|]. simpl.
  destruct (String.eqb_spec (GoStrings.TrimSpace (Title task)) "") as [E'|E'];
    [reflexivity | tauto].
Qed.

Lemma titleAccepted_dec task : titleAccepted task \/ ~ titleAccepted task.
Proof.
  unfold titleAccepted.
  destruct (String.eqb_spec (Title task) "");
    destruct (String.eqb_spec (GoStrings.TrimSpace (Title task)) ""); tauto.
Qed.

Lemma GetByID_Ok r id t :
  GetByID r id = Ok t <->
  exists row, select_by_id (db r) id = Some row /\ t = scanRow row.
Proof.
  unfold GetByID. destruct (select_by_id (db r) id) as [row|].
  - split.
    + intros [= <-]. now exists row.
    + intros [row' [[= <-] ->]]. reflexivity.
  - split; [discriminate | intros [row' [H _]]; discriminate].
Qed.

(** What an accepted update changes: the title, if one is provided, and
    [updated_at]; every other field is the stored one. *)
Lemma Update_frame r now task t0 :
  GetByID r (ID task) = Ok t0 ->
  titleAccepted task ->
  exists t1 r',
    Service.Update r now task = (Ok t1, r')
    /\ GetByID r' (ID task) = Ok t1
    /\ Title t1 = (if (Title task =? "")%string then Title t0
                   else GoStrings.TrimSpace (Title task))
    /\ ID t1 = ID t0
    /\ Description t1 = Description t0
    /\ Assignee t1 = Assignee t0
    /\ Completed t1 = Completed t0
    /\ DueDate t1 = DueDate t0
    /\ CreatedAt t1 = CreatedAt t0
    /\ UpdatedAt t1 = now.
Proof.
  intros Hget Hacc. apply GetByID_Ok in Hget. destruct Hget as [row [H ->]].
  eexists _, _. split; [exact (Update_found r now task row H Hacc)|].
  split.
  - unfold GetByID. rewrite CacheFacts.invalidate_db. cbn [db].
    rewrite select_by_id_update, H. cbn [option_map].
    now rewrite updatedRow_fixed.
  - unfold updatedRow, mergedTitle, scanRow; simpl.
    repeat split; reflexivity.
Qed.

Lemma Create_invalid r uuid now task :
  GoStrings.TrimSpace (Title task) = "" ->
  Service.Create r uuid now task = (Err ErrInvalidInput, r).
Proof. intros H. unfold Service.Create. simpl. now rewrite H. Qed.

Lemma Create_fresh r uuid now task :
  GoStrings.TrimSpace (Title task) <> "" ->
  select_by_id (db r) (ID (createdTask task uuid now)) = None ->
  Service.Create r uuid now task
  = (Ok (createdTask task uuid now),
     invalidateListCache
       (mkTaskRepo (db r ++ [bindTask (createdTask task uuid now)])%list
                   (rdb r))).
Proof.
  intros Ht Hfresh. unfold Service.Create. cbn [Title with_Title].
  destruct (String.eqb_spec (GoStrings.TrimSpace (Title task)) "");
    [contradiction|].
  unfold Repositories.Create.
  fold (createdTask task uuid now).
  rewrite (insert_fresh (db r) (bindTask (createdTask task uuid now)))
    by exact Hfresh.
  reflexivity.
Qed.

Lemma Create_duplicate r uuid now task row :
  GoStrings.TrimSpace (Title task) <> "" ->
  select_by_id (db r) (ID (createdTask task uuid now)) = Some row ->
  Service.Create r uuid now task = (Err ErrUniqueViolation, r).
Proof.
  intros Ht Hdup. unfold Service.Create. cbn [Title with_Title].
  destruct (String.eqb_spec (GoStrings.TrimSpace (Title task)) "");
    [contradiction|].
  unfold Repositories.Create.
  fold (createdTask task uuid now).
  unfold insert.
  assert (E : existsb (has_id (r_id (bindTask (createdTask task uuid now))))
                      (db r) = true).
  { apply select_by_id_Some in Hdup. destruct Hdup as [Hin Hid].
    apply existsb_exists. exists row. split; [exact Hin|].
    now apply has_id_true. }
  now rewrite E.
Qed.

Lemma ToModel_ID dto id : ID (DTOs.UpdateTaskDTO_ToModel dto id) = id.
Proof.
  unfold DTOs.UpdateTaskDTO_ToModel.
  destruct dto as [[ti|] [de|] [a|] [c|] [du|]]; simpl;
    repeat match goal with |- context [(?x =? "")%string] =>
                             destruct (x =? "")%string end;
    reflexivity.
Qed.

Lemma ToModel_Title dto id :
  Title (DTOs.UpdateTaskDTO_ToModel dto id)
  = match DTOs.u_Title dto with Some s => s | None => "" end.
Proof.
  unfold DTOs.UpdateTaskDTO_ToModel.
  destruct dto as [[ti|] [de|] [a|] [c|] [du|]]; simpl;
    repeat match goal with |- context [(?x =? "")%string] =>
                             destruct (x =? "")%string end;
    reflexivity.
Qed.

End ServiceFacts.

(** ** Claims about create and update *)

Import Model DTOs Repositories Spec.

(** C1 (a defect of the code). The claim asks that a partial update merge
    every provided field onto the stored record.  [Service.Update] merges
    the title only: on the stored task ["a"] (title ["old"], description
    ["text"], not completed, no due date) the request
    [{description: "", completed: true, due_date: 9}] is answered with
    success and leaves description, completed flag and due date as they
    were; [{description: "new"}] leaves the description as it was too.  The
    title, when provided, is replaced by its trimmed form. *)
Theorem update_ignores_completed_description_due_date :
  let stored now :=
    mkTask "a" "old" (mkNullString "text" true) (mkNullString "bob" true)
           false nullTime 5 now in
  let persisted now :=
    mkTaskRepo [SQL.mkRow "a" "old" (Some "text") (Some "bob") false None 5 now]
               None in
  Service.Update oneTask 7
    (UpdateTaskDTO_ToModel (mkUpdateTaskDTO None (Some "") None (Some true) (Some 9)) "a")
  = (Ok (stored 7), persisted 7)
  /\ Service.Update oneTask 8
       (UpdateTaskDTO_ToModel (mkUpdateTaskDTO None (Some "new") None None None) "a")
     = (Ok (stored 8), persisted 8)
  /\ Service.Update oneTask 9
       (UpdateTaskDTO_ToModel (mkUpdateTaskDTO (Some " new ") None None None None) "a")
     = (Ok (with_Title (stored 9) "new"),
        mkTaskRepo [SQL.mkRow "a" "new" (Some "text") (Some "bob") false None 5 9]
                   None).
Proof. repeat split; reflexivity. Qed.

(** C4. [Service.Create] trims the title before it validates and stores it.
    When the trimmed title is empty (the title was empty or white space
    only, as [""] and ["   "]) the call fails with [ErrInvalidInput] and the
    repository is returned untouched: the store is not called.  Otherwise,
    the identifier being free, the task is stored and returned with exactly
    the trimmed title ([" x "] gives ["x"]). *)
Theorem create_trims_and_validates_title r uuid now task :
  (GoStrings.TrimSpace (Title task) = "" ->
   Service.Create r uuid now task = (Err ErrInvalidInput, r))
  /\ (GoStrings.allAsciiSpace (Title task) = true ->
      Service.Create r uuid now task = (Err ErrInvalidInput, r))
  /\ (GoStrings.TrimSpace (Title task) <> "" ->
      SQL.select_by_id (db r) (if (ID task =? "")%string then uuid else ID task)
      = None ->
      exists t r' p,
        Service.Create r uuid now task = (Ok t, r')
        /\ Title t = GoStrings.TrimSpace (Title task)
        /\ GetByID r' (ID t) = Ok p
        /\ Title p = GoStrings.TrimSpace (Title task))
  /\ GoStrings.TrimSpace "" = ""
  /\ GoStrings.TrimSpace "   " = ""
  /\ GoStrings.TrimSpace " x " = "x".
Proof.
  split; [apply ServiceFacts.Create_invalid|].
  split; [intros H; apply ServiceFacts.Create_invalid;
          now apply GoStringsFacts.TrimSpace_allAsciiSpace|].
  split; [|repeat split; reflexivity].
  intros Ht Hfresh.
  assert (Hid : ID (createdTask task uuid now)
                = if (ID task =? "")%string then uuid else ID task).
  { unfold createdTask. simpl. now destruct (ID task =? "")%string. }
  rewrite <- Hid in Hfresh.
  exists (createdTask task uuid now). eexists. 
  exists (SQL.scanRow (SQL.bindTask (createdTask task uuid now))).
  split; [exact (ServiceFacts.Create_fresh r uuid now task Ht Hfresh)|].
  split; [unfold createdTask; simpl; now destruct (ID task =? "")%string|].
  split.
  - unfold GetByID. rewrite CacheFacts.invalidate_db. cbn [db].
    change (ID (createdTask task uuid now))
      with (SQL.r_id (SQL.bindTask (createdTask task uuid now))).
    rewrite (SQLFacts.select_by_id_insert (db r) _ _
               (SQLFacts.insert_fresh
                  (db r) (SQL.bindTask (createdTask task uuid now)) Hfresh)).
    reflexivity.
  - unfold createdTask. simpl. now destruct (ID task =? "")%string.
Qed.

Lemma create_trims_and_validates_title_witness :
  Service.Create oneTask "u1" 7 (with_Title zeroTask "   ")
  = (Err ErrInvalidInput, oneTask)
  /\ exists t r' p,
       Service.Create oneTask "u1" 7 (with_Title zeroTask " x ") = (Ok t, r')
       /\ Title t = GoStrings.TrimSpace " x "
       /\ GetByID r' (ID t) = Ok p
       /\ Title p = GoStrings.TrimSpace " x ".
Proof.
  split.
  - apply (create_trims_and_validates_title
             oneTask "u1" 7 (with_Title zeroTask "   ")).
    reflexivity.
  - apply (create_trims_and_validates_title
             oneTask "u1" 7 (with_Title zeroTask " x ")).
    + vm_compute. discriminate.
    + reflexivity.
Defined.

(** C5. For an identifier no stored task has, [Service.Update] fails with
    [ErrNotFound] whatever the payload is, both for a partial task built
    from an update request and for any task handed to the service; the
    repository is left as it was and the handler answers 404. *)
Theorem update_of_unknown_id_is_not_found r now id (dto : UpdateTaskDTO)
        (task : Task) :
  (forall row, In row (db r) -> SQL.r_id row <> id) ->
  Service.Update r now (UpdateTaskDTO_ToModel dto id) = (Err ErrNotFound, r)
  /\ (ID task = id -> Service.Update r now task = (Err ErrNotFound, r))
  /\ (id <> "" -> Handler.UpdateTask r now id dto = (Handler.StatusNotFound, r)).
Proof.
  intros Hnone. apply SQLFacts.select_by_id_None in Hnone.
  assert (H1 : Service.Update r now (UpdateTaskDTO_ToModel dto id)
               = (Err ErrNotFound, r)).
  { apply ServiceFacts.Update_missing. now rewrite ServiceFacts.ToModel_ID. }
  split; [exact H1|]. split.
  - intros <-. now apply ServiceFacts.Update_missing.
  - intros Hid. unfold Handler.UpdateTask.
    destruct (String.eqb_spec id ""); [contradiction|]. now rewrite H1.
Qed.

Lemma update_of_unknown_id_is_not_found_witness :
  Service.Update oneTask 7
    (UpdateTaskDTO_ToModel
       (mkUpdateTaskDTO (Some "   ") (Some "") None (Some true) None) "missing")
  = (Err ErrNotFound, oneTask).
Proof.
  refine (proj1 (update_of_unknown_id_is_not_found
                   oneTask 7 "missing"
                   (mkUpdateTaskDTO (Some "   ") (Some "") None (Some true) None)
                   zeroTask _)).
  intros row Hin. simpl in Hin. destruct Hin as [<-|[]]. simpl. discriminate.
Defined.

(** C6. On an existing task, an update request that provides only
    [completed] succeeds and leaves title, description, assignee and due
    date of the stored record as they were before the update. *)
Theorem update_completed_only_keeps_other_fields r now id (b : bool) t0 :
  GetByID r id = Ok t0 ->
  exists t1 r',
    Service.Update r now
      (UpdateTaskDTO_ToModel (mkUpdateTaskDTO None None None (Some b) None) id)
    = (Ok t1, r')
    /\ GetByID r' id = Ok t1
    /\ Title t1 = Title t0
    /\ Description t1 = Description t0
    /\ Assignee t1 = Assignee t0
    /\ DueDate t1 = DueDate t0.
Proof.
  intros Hget.
  set (task := UpdateTaskDTO_ToModel (mkUpdateTaskDTO None None None (Some b) None) id).
  assert (Hid : ID task = id) by apply ServiceFacts.ToModel_ID.
  assert (Hacc : titleAccepted task) by (left; reflexivity).
  rewrite <- Hid in Hget.
  destruct (ServiceFacts.Update_frame r now task t0 Hget Hacc)
    as (t1 & r' & Hu & Hg & Ht & _ & Hd & Ha & _ & Hdd & _).
  exists t1, r'. rewrite Hid in Hg.
  repeat split; assumption.
Qed.

Lemma update_completed_only_keeps_other_fields_witness :
  exists t1 r',
    Service.Update oneTask 7
      (UpdateTaskDTO_ToModel (mkUpdateTaskDTO None None None (Some true) None) "a")
    = (Ok t1, r')
    /\ GetByID r' "a" = Ok t1
    /\ Title t1 = "old"
    /\ Description t1 = mkNullString "text" true
    /\ Assignee t1 = mkNullString "bob" true
    /\ DueDate t1 = nullTime.
Proof.
  apply (update_completed_only_keeps_other_fields
           oneTask 7 "a" true
           (mkTask "a" "old" (mkNullString "text" true) (mkNullString "bob" true)
                   false nullTime 5 5)).
  reflexivity.
Defined.

(** C7. On an existing task whose assignee is set, an update request whose
    [assignee] is the empty string leaves the stored assignee as it was,
    still set, whether the update is accepted or rejected for its title.
    The description fares no differently: when the request also gives
    [description] as the empty string, the stored description is left as
    it was, so that a description that was set is not cleared.  Already
    the partial task built from the request is the one built from a
    request that has no [assignee], and an empty [description] gives the
    partial task of a request that has no [description]. *)
Theorem update_empty_assignee_and_description_keep_stored
        r now id (dto : UpdateTaskDTO) t0 :
  GetByID r id = Ok t0 ->
  ns_Valid (Assignee t0) = true ->
  u_Assignee dto = Some "" ->
  (exists t1,
      GetByID (snd (Service.Update r now (UpdateTaskDTO_ToModel dto id))) id
      = Ok t1
      /\ Assignee t1 = Assignee t0
      /\ ns_Valid (Assignee t1) = true
      /\ (u_Description dto = Some "" -> Description t1 = Description t0))
  /\ UpdateTaskDTO_ToModel dto id
     = UpdateTaskDTO_ToModel
         (mkUpdateTaskDTO (u_Title dto) (u_Description dto) None
                          (u_Completed dto) (u_DueDate dto)) id
  /\ (u_Description dto = Some "" ->
      UpdateTaskDTO_ToModel dto id
      = UpdateTaskDTO_ToModel
          (mkUpdateTaskDTO (u_Title dto) None None
                           (u_Completed dto) (u_DueDate dto)) id).
Proof.
  intros Hget Hvalid Hass.
  set (task := UpdateTaskDTO_ToModel dto id).
  assert (Hid : ID task = id) by apply ServiceFacts.ToModel_ID.
  split; [|split].
  - destruct (ServiceFacts.titleAccepted_dec task) as [Hacc|Hrej].
    + rewrite <- Hid in Hget.
      destruct (ServiceFacts.Update_frame r now task t0 Hget Hacc)
        as (t1 & r' & Hu & Hg & _ & _ & Hd & Ha & _).
      exists t1. rewrite Hu. cbn [snd]. rewrite Hid in Hg.
      repeat split; [exact Hg | exact Ha | now rewrite Ha | intros _; exact Hd].
    + pose proof Hget as Hget'. rewrite <- Hid in Hget'.
      apply ServiceFacts.GetByID_Ok in Hget'. destruct Hget' as [row [Hsel _]].
      rewrite (ServiceFacts.Update_rejected r now task row Hsel Hrej).
      cbn [snd]. exists t0. repeat split; assumption.
  - unfold task. destruct dto as [ti de a c du]. cbn in Hass. subst a.
    reflexivity.
  - intros Hdesc. unfold task. destruct dto as [ti de a c du].
    cbn in Hass, Hdesc. subst a de. destruct ti; reflexivity.
Qed.

Lemma update_empty_assignee_and_description_keep_stored_witness :
  GetByID
    (snd (Service.Update oneTask 7
            (UpdateTaskDTO_ToModel
               (mkUpdateTaskDTO None (Some "") (Some "") None None) "a")))
    "a"
  = Ok (mkTask "a" "old" (mkNullString "text" true) (mkNullString "bob" true)
               false nullTime 5 7)
  /\ exists t1,
      GetByID
        (snd (Service.Update oneTask 7
                (UpdateTaskDTO_ToModel
                   (mkUpdateTaskDTO None (Some "") (Some "") None None) "a")))
        "a" = Ok t1
      /\ Assignee t1 = mkNullString "bob" true
      /\ Description t1 = mkNullString "text" true.
Proof.
  split; [reflexivity|].
  destruct (update_empty_assignee_and_description_keep_stored
              oneTask 7 "a"
              (mkUpdateTaskDTO None (Some "") (Some "") None None)
              (mkTask "a" "old" (mkNullString "text" true)
                      (mkNullString "bob" true) false nullTime 5 5)
              eq_refl eq_refl eq_refl)
    as [(t1 & Hg & Ha & _ & Hd) _].
  exists t1. split; [exact Hg|]. split; [exact Ha | exact (Hd eq_refl)].
Defined.

(** ** Claims about listing and counting *)

Module ListFacts.
Import SQL SQLFacts.

Lemma countWhere_listWhere completed assignee row :
  countWhere completed assignee row = listWhere completed assignee row.
Proof. reflexivity. Qed.

(** The four cases of the code are the filter semantics of the
    specification. *)
Lemma listWhere_matchesFilters completed assignee row :
  listWhere completed assignee row
  = matchesFilters completed assignee (scanRow row).
Proof.
  unfold listWhere, matchesFilters, completed_is, assignee_is, scanRow.
  cbn [Completed Assignee].
  destruct completed as [c|], assignee as [a|]; cbn;
    try destruct (a =? "")%string; cbn;
    try destruct (r_assignee row); cbn;
    rewrite ?andb_true_r, ?andb_false_r; reflexivity.
Qed.

Lemma filter_map_length {A B} (f : B -> bool) (g : A -> B) l :
  length (List.filter f (List.map g l))
  = length (List.filter (fun x => f (g x)) l).
Proof.
  induction l as [|x l IH]; simpl; [reflexivity|].
  destruct (f (g x)); simpl; now rewrite IH.
Qed.

Lemma filter_ext_length {A} (f g : A -> bool) l :
  (forall x, f x = g x) ->
  length (List.filter f l) = length (List.filter g l).
Proof. intros H. now rewrite (List.filter_ext f g H). Qed.

Lemma filter_length_le {A} (f : A -> bool) l :
  (length (List.filter f l) <= length l)%nat.
Proof. apply List.filter_length_le. Qed.

Lemma insert_desc_In r x l : In x (insert_desc r l) -> x = r \/ In x l.
Proof.
  induction l as [|y l IH]; simpl.
  - intros [<-|[]]. now left.
  - destruct (r_created_at y <=? r_created_at r); simpl.
    + intros [<-|[<-|H]]; auto.
    + intros [<-|H]; auto. destruct (IH H); auto.
Qed.

Lemma order_by_In x l : In x (order_by_created_at_desc l) -> In x l.
Proof.
  unfold order_by_created_at_desc.
  induction l as [|y l IH]; simpl; [tauto|].
  intros H. apply insert_desc_In in H. destruct H as [->|H]; auto.
Qed.

(** With a limit that covers the table and no offset, the store answers
    with every matching row. *)
Lemma listFromDB_unbounded tbl limit offset completed assignee :
  0 < limit -> Z.of_nat (length tbl) <= limit -> offset <= 0 ->
  listFromDB tbl limit offset completed assignee
  = List.map scanRow
             (order_by_created_at_desc
                (List.filter (listWhere completed assignee) tbl)).
Proof.
  intros Hl Hlen Ho. unfold listFromDB, select.
  destruct (Z.leb_spec limit 0); [lia|].
  assert (Z.to_nat (if offset <? 0 then 0 else offset) = 0%nat) as ->.
  { destruct (Z.ltb_spec offset 0); lia. }
  rewrite drop_0. rewrite firstn_all2; [reflexivity|].
  rewrite order_by_length.
  pose proof (filter_length_le (listWhere completed assignee) tbl). lia.
Qed.

Lemma List_miss r now limit offset completed assignee :
  cachedList r now (cacheKeyForList limit offset completed assignee) = None ->
  fst (List_ r now limit offset completed assignee)
  = Ok (listFromDB (db r) limit offset completed assignee).
Proof. intros H. unfold List_. now rewrite H. Qed.

Lemma CountFiltered_spec r completed assignee :
  CountFiltered r completed assignee
  = Ok (Z.of_nat (length (List.filter (matchesFilters completed assignee)
                                      (storedTasks r)))).
Proof.
  unfold CountFiltered, count, storedTasks. do 2 f_equal.
  rewrite filter_map_length. apply filter_ext_length. intros row.
  now rewrite countWhere_listWhere, listWhere_matchesFilters.
Qed.

End ListFacts.

(** C8. [CountFiltered] runs the same four conditions as [List] (no filter,
    completed only, assignee only, both; an empty assignee filter is no
    filter) and returns the number of stored tasks that match the filters.
    A [List] that reads the store with a limit covering the table and no
    offset returns that many tasks, all matching; in particular
    [CountFiltered(true, nil)] is the number of completed tasks in the
    unfiltered listing. *)
Theorem countFiltered_agrees_with_list r completed assignee :
  (forall row,
      countWhere completed assignee row = listWhere completed assignee row
      /\ listWhere completed assignee row
         = matchesFilters completed assignee (SQL.scanRow row))
  /\ CountFiltered r completed assignee
     = Ok (Z.of_nat (length (List.filter (matchesFilters completed assignee)
                                         (storedTasks r))))
  /\ (forall now limit offset,
         0 < limit -> Z.of_nat (length (db r)) <= limit -> offset <= 0 ->
         cachedList r now (cacheKeyForList limit offset completed assignee)
         = None ->
         exists l,
           fst (List_ r now limit offset completed assignee) = Ok l
           /\ CountFiltered r completed assignee = Ok (Z.of_nat (length l))
           /\ (forall t, In t l -> matchesFilters completed assignee t = true))
  /\ (forall now limit offset,
         0 < limit -> Z.of_nat (length (db r)) <= limit -> offset <= 0 ->
         cachedList r now (cacheKeyForList limit offset None None) = None ->
         exists l,
           fst (List_ r now limit offset None None) = Ok l
           /\ CountFiltered r (Some true) None
              = Ok (Z.of_nat (length (List.filter Completed l)))).
Proof.
  split; [intros row; split;
          [apply ListFacts.countWhere_listWhere
          |apply ListFacts.listWhere_matchesFilters]|].
  split; [apply ListFacts.CountFiltered_spec|].
  split.
  - intros now limit offset Hl Hlen Ho Hmiss.
    exists (listFromDB (db r) limit offset completed assignee).
    split; [now apply ListFacts.List_miss|].
    rewrite ListFacts.listFromDB_unbounded by assumption.
    split.
    + unfold CountFiltered, SQL.count. do 2 f_equal.
      rewrite length_map, SQLFacts.order_by_length.
      apply ListFacts.filter_ext_length. intros row.
      apply ListFacts.countWhere_listWhere.
    + intros t Hin. apply List.in_map_iff in Hin.
      destruct Hin as [row [<- Hin]]. apply ListFacts.order_by_In in Hin.
      apply List.filter_In in Hin. destruct Hin as [_ Hw].
      now rewrite <- ListFacts.listWhere_matchesFilters.
  - intros now limit offset Hl Hlen Ho Hmiss.
    exists (listFromDB (db r) limit offset None None).
    split; [now apply ListFacts.List_miss|].
    rewrite ListFacts.listFromDB_unbounded by assumption.
    unfold CountFiltered, SQL.count. do 2 f_equal.
    rewrite ListFacts.filter_map_length, SQLFacts.order_by_filter_length.
    unfold listWhere. cbn [isNil nilOrEmpty andb].
    assert (Hall : forall l : list SQL.Row, List.filter (fun _ => true) l = l).
    { induction l as [|x l IH]; simpl; [reflexivity | now rewrite IH]. }
    rewrite Hall. apply ListFacts.filter_ext_length. intros row.
    unfold countWhere, SQL.completed_is, SQL.scanRow. cbn.
    now destruct (SQL.r_completed row).
Qed.

Lemma countFiltered_agrees_with_list_witness :
  CountFiltered twoTasks (Some true) None = Ok 1
  /\ exists l,
       fst (List_ twoTasks 7 100 0 None None) = Ok l
       /\ CountFiltered twoTasks (Some true) None
          = Ok (Z.of_nat (length (List.filter Completed l))).
Proof.
  split; [reflexivity|].
  destruct (countFiltered_agrees_with_list twoTasks (Some true) None)
    as (_ & _ & _ & H).
  apply (H 7 100 0); first [reflexivity | simpl; lia].
Defined.

(** ** Claims about the invalidation *)

Module InvalidationFacts.
Import SQL SQLFacts CacheFacts ServiceFacts.

Lemma invalidate_listCacheEmpty r : listCacheEmpty (invalidateListCache r).
Proof. intros c k Hc Hg. exact (invalidate_removes r c k Hc Hg). Qed.

Lemma listCacheEmpty_listsReadStore r : listCacheEmpty r -> listsReadStore r.
Proof.
  intros He now limit offset completed assignee.
  apply ListFacts.List_miss. unfold cachedList.
  destruct (rdb r) as [c|] eqn:E; [|reflexivity].
  unfold Redis.Get.
  now rewrite (He c _ E (cacheKey_in_namespace limit offset completed assignee)).
Qed.

Lemma Create_Ok_inv r uuid now task t r' :
  Service.Create r uuid now task = (Ok t, r') ->
  t = createdTask task uuid now
  /\ select_by_id (db r) (ID t) = None
  /\ r' = invalidateListCache
            (mkTaskRepo (db r ++ [bindTask t])%list (rdb r)).
Proof.
  intros H.
  destruct (String.eqb_spec (GoStrings.TrimSpace (Title task)) "") as [E|E].
  - rewrite (Create_invalid r uuid now task E) in H. discriminate.
  - destruct (select_by_id (db r) (ID (createdTask task uuid now)))
      as [row|] eqn:Hsel.
    + rewrite (Create_duplicate r uuid now task row E Hsel) in H. discriminate.
    + rewrite (Create_fresh r uuid now task E Hsel) in H.
      injection H as <- <-. split; [reflexivity|].
      split; [exact Hsel | reflexivity].
Qed.

(** A created task is read back as it was stored. *)
Lemma Create_Ok_stored r uuid now task t r' :
  Service.Create r uuid now task = (Ok t, r') ->
  GetByID r' (ID t) = Ok (scanRow (bindTask t)).
Proof.
  intros H. apply Create_Ok_inv in H. destruct H as (_ & Hsel & ->).
  unfold GetByID. rewrite CacheFacts.invalidate_db. cbn [db].
  change (ID t) with (r_id (bindTask t)).
  now rewrite (select_by_id_insert
                 (db r) (bindTask t) _ (insert_fresh (db r) (bindTask t) Hsel)).
Qed.

Lemma Update_Ok_inv r now task t r' :
  Service.Update r now task = (Ok t, r') ->
  exists row,
    select_by_id (db r) (ID task) = Some row
    /\ t = scanRow (updatedRow task now row)
    /\ r' = invalidateListCache
              (mkTaskRepo
                 (List.map (update_row (updatedRow task now row) now) (db r))
                 (rdb r)).
Proof.
  intros H.
  destruct (select_by_id (db r) (ID task)) as [row|] eqn:Hsel.
  - destruct (titleAccepted_dec task) as [Hacc|Hrej].
    + rewrite (Update_found r now task row Hsel Hacc) in H.
      injection H as <- <-. exists row. repeat split; reflexivity.
    + rewrite (Update_rejected r now task row Hsel Hrej) in H. discriminate.
  - rewrite (Update_missing r now task Hsel) in H. discriminate.
Qed.

Lemma Delete_Ok_inv r id r' :
  Service.Delete r id = (None, r') ->
  r' = invalidateListCache
         (mkTaskRepo (List.filter (fun row => negb (has_id id row)) (db r))
                     (rdb r)).
Proof.
  unfold Service.Delete, Repositories.Delete, SQL.delete.
  destruct (0 <? Z.of_nat (length (List.filter (has_id id) (db r))));
    cbn; [now intros [= <-] | discriminate].
Qed.

End InvalidationFacts.

(** What every successful write has to show first: the cache holds no list
    entry, so lists read the store. *)
Ltac after_invalidation :=
  split; [apply InvalidationFacts.invalidate_listCacheEmpty|];
  split; [apply InvalidationFacts.listCacheEmpty_listsReadStore,
                InvalidationFacts.invalidate_listCacheEmpty|].

(** C2. When a create, update or delete succeeds, the repository it returns
    has no entry left under the list-cache namespace [tasks:list:*],
    whatever limit, offset and filters the entry was stored for; so every
    later [List], with any arguments, reads the store as the write left it:
    the created task is in it, the updated task is the one returned, the
    deleted task is gone. *)
Theorem successful_write_empties_list_cache r uuid now task id :
  (forall t r',
      Service.Create r uuid now task = (Ok t, r') ->
      listCacheEmpty r' /\ listsReadStore r'
      /\ db r' = (db r ++ [SQL.bindTask t])%list)
  /\ (forall t r',
         Service.Update r now task = (Ok t, r') ->
         listCacheEmpty r' /\ listsReadStore r'
         /\ GetByID r' (ID task) = Ok t)
  /\ (forall r',
         Service.Delete r id = (None, r') ->
         listCacheEmpty r' /\ listsReadStore r'
         /\ GetByID r' id = Err ErrNotFound).
Proof.
  split; [|split].
  - intros t r' H. apply InvalidationFacts.Create_Ok_inv in H.
    destruct H as (_ & _ & ->).
    after_invalidation.
    now rewrite CacheFacts.invalidate_db.
  - intros t r' H. apply InvalidationFacts.Update_Ok_inv in H.
    destruct H as (row & Hsel & -> & ->).
    after_invalidation.
    unfold GetByID. rewrite CacheFacts.invalidate_db. cbn [db].
    rewrite SQLFacts.select_by_id_update, Hsel. cbn [option_map].
    now rewrite ServiceFacts.updatedRow_fixed.
  - intros r' H. apply InvalidationFacts.Delete_Ok_inv in H. subst r'.
    after_invalidation.
    unfold GetByID. rewrite CacheFacts.invalidate_db. cbn [db].
    now rewrite SQLFacts.select_by_id_delete.
Qed.

Lemma successful_write_empties_list_cache_witness :
  Redis.Get (default ∅ (rdb cachedRepo)) 7
            (cacheKeyForList 100 0 None None) = Some JNull
  /\ exists t r',
       Service.Update cachedRepo 7
         (UpdateTaskDTO_ToModel (mkUpdateTaskDTO (Some "new") None None None None) "a")
       = (Ok t, r')
       /\ listCacheEmpty r' /\ listsReadStore r'
       /\ GetByID r' "a" = Ok t.
Proof.
  split; [vm_compute; reflexivity|].
  eexists _, _. split; [vm_compute; reflexivity|].
  apply (successful_write_empties_list_cache
           cachedRepo "u" 7
           (UpdateTaskDTO_ToModel (mkUpdateTaskDTO (Some "new") None None None None) "a")
           "a").
  vm_compute; reflexivity.
Defined.

(** ** Claims about the cache key *)

Module KeyFacts.

Lemma append_inj_l s x y : s +:+ x = s +:+ y -> x = y.
Proof.
  induction s as [|c s IH]; simpl; [trivial|].
  intros [= H]. now apply IH.
Qed.

(** A colon-free text followed by a colon is read back unambiguously. *)
Lemma colon_split s s' r r' :
  noColon s = true -> noColon s' = true ->
  s +:+ String ":" r = s' +:+ String ":" r' -> s = s' /\ r = r'.
Proof.
  revert s'. induction s as [|c s IH]; intros [|c' s'] Hs Hs'; simpl in *.
  - intros [= ->]. split; reflexivity.
  - intros [= <- _]. discriminate.
  - intros [= -> _]. discriminate.
  - apply andb_true_iff in Hs, Hs'. destruct Hs as [_ Hs], Hs' as [_ Hs'].
    intros [= -> H]. destruct (IH s' Hs Hs' H) as [-> ->].
    split; reflexivity.
Qed.

Lemma noColon_uint d : noColon (NilEmpty.string_of_uint d) = true.
Proof. induction d; simpl; auto. Qed.

Lemma noColon_Sprintf_d n : noColon (Fmt.Sprintf_d n) = true.
Proof.
  unfold Fmt.Sprintf_d, NilEmpty.string_of_int.
  destruct (Z.to_int n); simpl; apply noColon_uint.
Qed.

(** Distinct integers print differently. *)
Lemma Sprintf_d_inj n m : Fmt.Sprintf_d n = Fmt.Sprintf_d m -> n = m.
Proof.
  unfold Fmt.Sprintf_d. intros H.
  assert (Hi : Z.to_int n = Z.to_int m).
  { apply (f_equal NilEmpty.int_of_string) in H.
    rewrite !NilEmpty.isi in H. now injection H. }
  apply (f_equal Z.of_int) in Hi. now rewrite !DecimalZ.of_to in Hi.
Qed.

Lemma compVal_inj (c c' : option bool) x y :
  match c with Some b => Fmt.Sprintf_v b | None => "any" end
    +:+ String ":" x
  = match c' with Some b => Fmt.Sprintf_v b | None => "any" end
      +:+ String ":" y ->
  c = c' /\ x = y.
Proof.
  destruct c as [[|]|], c' as [[|]|]; simpl; intros H;
    try discriminate; injection H as ->; split; reflexivity.
Qed.

(** The key determines limit, offset, completed filter and the text of the
    assignee filter. *)
Lemma cacheKeyForList_inj l o c a l' o' c' a' :
  cacheKeyForList l o c a = cacheKeyForList l' o' c' a' ->
  l = l' /\ o = o' /\ c = c' /\ assVal a = assVal a'.
Proof.
  unfold cacheKeyForList. fold (assVal a). fold (assVal a').
  intros H. apply append_inj_l in H.
  apply (colon_split _ _ _ _ (noColon_Sprintf_d l) (noColon_Sprintf_d l')) in H.
  destruct H as [Hl H]. apply Sprintf_d_inj in Hl.
  apply (append_inj_l "offset=") in H.
  apply (colon_split _ _ _ _ (noColon_Sprintf_d o) (noColon_Sprintf_d o')) in H.
  destruct H as [Ho H]. apply Sprintf_d_inj in Ho.
  apply (append_inj_l "completed=") in H.
  apply compVal_inj in H. destruct H as [Hc H].
  apply (append_inj_l "assignee=") in H.
  repeat split; assumption.
Qed.

(** Keys differ for distinct arguments, unless the assignee filters are
    the absent one and the name ["any"]. *)
Lemma cacheKeyForList_inj_but_any l o c a l' o' c' a' :
  a <> Some "any" -> a' <> Some "any" ->
  cacheKeyForList l o c a = cacheKeyForList l' o' c' a' ->
  l = l' /\ o = o' /\ c = c' /\ a = a'.
Proof.
  intros Ha Ha' H. apply cacheKeyForList_inj in H.
  destruct H as (Hl & Ho & Hc & Hv). repeat split; try assumption.
  destruct a as [s|], a' as [s'|]; simpl in Hv; subst; congruence.
Qed.

End KeyFacts.

(** C3 (a defect of the code). The claim asks that distinct filter
    combinations have distinct keys and that the sentinel of an absent
    filter differ from every real filter value.  The key of the assignee
    filter ["any"] is the key of the absent assignee filter, for every
    limit, offset and completed filter.  So after an unfiltered [List] has
    filled the cache, a [List] for the assignee ["any"] is answered from the
    cache with both stored tasks, none of which is assigned to ["any"],
    while the store holds no match and [CountFiltered] says 0. *)
Theorem cache_key_of_assignee_any_is_key_of_no_assignee :
  (forall limit offset completed,
      cacheKeyForList limit offset completed (Some "any")
      = cacheKeyForList limit offset completed None)
  /\ cacheKeyForList 100 0 None (Some "any")
     = "tasks:list:limit=100:offset=0:completed=any:assignee=any"
  /\ (let r1 := snd (List_ twoTasksCached 7 100 0 None None) in
      fst (List_ r1 8 100 0 None (Some "any"))
      = Ok [mkTask "b" "two" nullString nullString true nullTime 6 6;
            mkTask "a" "one" nullString (mkNullString "bob" true) false
                   nullTime 5 5]
      /\ listFromDB (db r1) 100 0 None (Some "any") = []
      /\ CountFiltered r1 None (Some "any") = Ok 0).
Proof.
  split; [reflexivity|]. split; [reflexivity|].
  vm_compute. repeat split; reflexivity.
Qed.

(** ** Claims about the timestamps *)

Module TimeFacts.
Import SQL SQLFacts ServiceFacts.

Lemma step_db r now c :
  db (step r now c) = db r
  \/ (exists uuid task,
         c = CallCreate uuid task
         /\ db (step r now c)
            = (db r ++ [bindTask (createdTask task uuid now)])%list)
  \/ (exists task row,
         c = CallUpdate task
         /\ db (step r now c)
            = List.map (update_row (updatedRow task now row) now) (db r))
  \/ (exists id,
         c = CallDelete id
         /\ db (step r now c)
            = List.filter (fun row => negb (has_id id row)) (db r)).
Proof.
  destruct c as [uuid task|id|limit offset completed assignee|task|id|];
    cbn [step]; try (left; reflexivity).
  - destruct (String.eqb_spec (GoStrings.TrimSpace (Title task)) "") as [E|E].
    + left. now rewrite (Create_invalid r uuid now task E).
    + destruct (select_by_id (db r) (ID (createdTask task uuid now)))
        as [row|] eqn:Hsel.
      * left. now rewrite (Create_duplicate r uuid now task row E Hsel).
      * right. left. exists uuid, task. split; [reflexivity|].
        rewrite (Create_fresh r uuid now task E Hsel). cbn [snd].
        now rewrite CacheFacts.invalidate_db.
  - left. unfold Service.List_, List_.
    destruct (cachedList r now _); cbn; [reflexivity|].
    destruct (rdb r); [destruct (JSON.Marshal _)|]; reflexivity.
  - destruct (select_by_id (db r) (ID task)) as [row|] eqn:Hsel.
    + destruct (titleAccepted_dec task) as [Hacc|Hrej].
      * right. right. left. exists task, row. split; [reflexivity|].
        rewrite (Update_found r now task row Hsel Hacc). cbn [snd].
        now rewrite CacheFacts.invalidate_db.
      * left. now rewrite (Update_rejected r now task row Hsel Hrej).
    + left. now rewrite (Update_missing r now task Hsel).
  - right. right. right. exists id. split; [reflexivity|].
    unfold Service.Delete, Repositories.Delete, SQL.delete.
    destruct (0 <? Z.of_nat (length (List.filter (has_id id) (db r))));
      cbn; [now rewrite CacheFacts.invalidate_db | reflexivity].
Qed.

Lemma step_ordered r clock now c :
  clock <= now ->
  timestampsOrdered clock (db r) ->
  timestampsOrdered now (db (step r now c)).
Proof.
  intros Hclock Hinv.
  destruct (step_db r now c)
    as [-> | [(uuid & task & _ & ->) | [(task & row0 & _ & ->) | (id & _ & ->)]]];
    intros row Hin.
  - destruct (Hinv row Hin). lia.
  - apply List.in_app_iff in Hin. destruct Hin as [Hin|[<-|[]]].
    + destruct (Hinv row Hin). lia.
    + unfold createdTask, UTC. simpl. lia.
  - apply List.in_map_iff in Hin. destruct Hin as [old [<- Hin]].
    destruct (Hinv old Hin). unfold update_row.
    destruct (has_id _ old); simpl; lia.
  - apply List.filter_In in Hin. destruct Hin as [Hin _].
    destruct (Hinv row Hin). lia.
Qed.

Lemma run_ordered calls : forall r clock,
  clockMonotone clock calls ->
  timestampsOrdered clock (db r) ->
  exists clock', timestampsOrdered clock' (db (run r calls)).
Proof.
  induction calls as [|[now c] calls IH]; intros r clock Hmono Hinv.
  - now exists clock.
  - destruct Hmono as [Hle Hmono]. cbn [run].
    apply (IH (step r now c) now Hmono).
    now apply (step_ordered r clock now c).
Qed.

End TimeFacts.

(** C9. Starting from an empty store, after any sequence of service calls
    made while the clock does not go backwards, every stored task has
    [updated_at >= created_at].  The timestamps come from the server: a
    successful create returns and stores the task with both timestamps
    equal to the instant of the call; a successful update stores that
    instant as [updated_at] and keeps [created_at]; the timestamps carried
    by the task handed to either call have no effect on it, and the tasks
    built from create and update requests carry none. *)
Theorem timestamps_are_ordered_and_server_assigned
        r uuid now task created updated :
  (forall start calls cache,
      clockMonotone start calls ->
      forall t, In t (storedTasks (run (mkTaskRepo [] cache) calls)) ->
                CreatedAt t <= UpdatedAt t)
  /\ (forall t r',
         Service.Create r uuid now task = (Ok t, r') ->
         CreatedAt t = now /\ UpdatedAt t = now
         /\ exists p, GetByID r' (ID t) = Ok p
                      /\ CreatedAt p = now /\ UpdatedAt p = now)
  /\ (forall t0 t r',
         GetByID r (ID task) = Ok t0 ->
         Service.Update r now task = (Ok t, r') ->
         GetByID r' (ID task) = Ok t
         /\ CreatedAt t = CreatedAt t0 /\ UpdatedAt t = now)
  /\ Service.Create r uuid now
       (with_UpdatedAt (with_CreatedAt task created) updated)
     = Service.Create r uuid now task
  /\ Service.Update r now
       (with_UpdatedAt (with_CreatedAt task created) updated)
     = Service.Update r now task
  /\ (forall d : CreateTaskDTO,
         CreatedAt (CreateTaskDTO_ToModel d) = zeroTime
         /\ UpdatedAt (CreateTaskDTO_ToModel d) = zeroTime)
  /\ (forall (d : UpdateTaskDTO) id,
         CreatedAt (UpdateTaskDTO_ToModel d id) = zeroTime
         /\ UpdatedAt (UpdateTaskDTO_ToModel d id) = zeroTime).
Proof.
  split.
  { intros start calls cache Hmono t Hin.
    unfold storedTasks in Hin. apply List.in_map_iff in Hin.
    destruct Hin as [row [<- Hin]].
    destruct (TimeFacts.run_ordered calls (mkTaskRepo [] cache) start Hmono)
      as [clock' Hinv]; [intros ? []|].
    destruct (Hinv row Hin). simpl. assumption. }
  split.
  { intros t r' H.
    pose proof (InvalidationFacts.Create_Ok_stored r uuid now task t r' H) as Hst.
    apply InvalidationFacts.Create_Ok_inv in H. destruct H as (Ht & _ & _).
    assert (Hc : CreatedAt t = now /\ UpdatedAt t = now).
    { subst t. unfold createdTask, UTC. simpl.
      destruct (ID task =? "")%string; split; reflexivity. }
    destruct Hc as [Hc Hu]. repeat split; try assumption.
    exists (SQL.scanRow (SQL.bindTask t)).
    split; [exact Hst | split; simpl; assumption]. }
  split.
  { intros t0 t r' Hget H. apply InvalidationFacts.Update_Ok_inv in H.
    destruct H as (row & Hsel & -> & ->).
    apply ServiceFacts.GetByID_Ok in Hget. destruct Hget as (row' & Hsel' & ->).
    rewrite Hsel in Hsel'. injection Hsel' as <-.
    split; [|split; reflexivity].
    unfold GetByID. rewrite CacheFacts.invalidate_db. cbn [db].
    rewrite SQLFacts.select_by_id_update, Hsel. cbn [option_map].
    now rewrite ServiceFacts.updatedRow_fixed. }
  split.
  { destruct task. unfold Service.Create, Repositories.Create. simpl.
    destruct (GoStrings.TrimSpace Title0 =? "")%string; [reflexivity|].
    destruct (ID0 =? "")%string; reflexivity. }
  split.
  { destruct task. reflexivity. }
  split.
  { intros [ti [de|] [a|] [du|]]; unfold CreateTaskDTO_ToModel; simpl;
      try destruct (a =? "")%string; split; reflexivity. }
  intros [[ti|] [de|] [a|] [c|] [du|]] id; unfold UpdateTaskDTO_ToModel; simpl;
    try destruct (de =? "")%string; try destruct (a =? "")%string;
    split; reflexivity.
Qed.

Lemma timestamps_are_ordered_and_server_assigned_witness :
  clockMonotone 0 someCalls
  /\ storedTasks (run (mkTaskRepo [] None) someCalls)
     = [mkTask "u1" "y" (mkNullString "" false) (mkNullString "" false) false
               nullTime 5 7]
  /\ forall t, In t (storedTasks (run (mkTaskRepo [] None) someCalls)) ->
               CreatedAt t <= UpdatedAt t.
Proof.
  split; [simpl; lia|]. split; [reflexivity|].
  apply (proj1 (timestamps_are_ordered_and_server_assigned
                  oneTask "u" 7 zeroTask 0 0) 0 someCalls None).
  simpl; lia.
Defined.

(** C9, where the order fails.  The instant a create stores is read from
    the clock of the process ([time.Now]), the instant an update stores
    from the clock of the database ([now()] in the trigger), and nothing
    compares the two: after a create at which the first reads 10 and an
    update at which the second reads 7, the stored task has [created_at]
    10 and [updated_at] 7. *)
Lemma timestamps_out_of_order_counterexample :
  storedTasks (run (mkTaskRepo [] None) Props.skewedCalls)
  = [mkTask "u1" "y" (mkNullString "" false) (mkNullString "" false) false
            nullTime 10 7]
  /\ ~ (forall t,
           In t (storedTasks (run (mkTaskRepo [] None) Props.skewedCalls)) ->
           CreatedAt t <= UpdatedAt t).
Proof.
  assert (E : storedTasks (run (mkTaskRepo [] None) Props.skewedCalls)
               = [mkTask "u1" "y" (mkNullString "" false)
                         (mkNullString "" false) false nullTime 10 7])
    by reflexivity.
  split; [exact E|]. rewrite E. intros H.
  specialize (H _ (or_introl eq_refl)). cbn [CreatedAt UpdatedAt] in H. lia.
Qed.


(** ** Claims about the cached documents *)

Module JSONFacts.
Import JSON SQL.

Lemma marshalTime_Some t j : marshalTime t = Some j -> j = JTime t.
Proof.
  unfold marshalTime. destruct ((year0 <=? t) && (t <? year10000))%bool;
    [now intros [= <-] | discriminate].
Qed.

(** What the store hands out is normalised. *)
Lemma scanRow_normalised row : normalised (scanRow row).
Proof.
  unfold normalised, normalString, normalTime, scanRow; simpl.
  destruct (r_description row), (r_assignee row), (r_due_date row); simpl;
    repeat split; first [discriminate | reflexivity].
Qed.

(** Reading back the document of a normalised task gives the task. *)
Lemma unmarshal_marshal_task t j :
  normalised t -> marshalTask t = Some j -> unmarshalTask j = Some t.
Proof.
  intros (Hd & Ha & Ht) H. unfold marshalTask in H.
  destruct (marshalNullTime (DueDate t)) as [due|] eqn:Edue; [|discriminate].
  destruct (marshalTime (CreatedAt t)) as [cr|] eqn:Ecr; [|discriminate].
  destruct (marshalTime (UpdatedAt t)) as [up|] eqn:Eup; [|discriminate].
  injection H as <-.
  apply marshalTime_Some in Ecr, Eup. subst cr up.
  destruct t as [id title [ds dv] [asg av] comp [dt dtv] ca ua].
  unfold normalString, normalTime, marshalNullTime in *. simpl in *.
  destruct dv; [|rewrite (Hd eq_refl)];
    (destruct av; [|rewrite (Ha eq_refl)]);
    (destruct dtv;
     [apply marshalTime_Some in Edue
     |injection Edue as <-; rewrite (Ht eq_refl)]);
    subst; reflexivity.
Qed.

Lemma unmarshal_marshal_tasks l js :
  Forall normalised l -> marshalTasks l = Some js ->
  unmarshalTasks js = Some l.
Proof.
  revert js. induction l as [|t l IH]; intros js Hn H; simpl in H.
  - now injection H as <-.
  - destruct (marshalTask t) as [j|] eqn:Ej; [|discriminate].
    destruct (marshalTasks l) as [js'|] eqn:Ejs; [|discriminate].
    injection H as <-. inversion Hn as [|? ? Hn1 Hn2]; subst. simpl.
    now rewrite (unmarshal_marshal_task t j Hn1 Ej), (IH js' Hn2 eq_refl).
Qed.

(** [json.Unmarshal] after [json.Marshal] is the identity on lists of
    normalised tasks. *)
Lemma Unmarshal_Marshal l doc :
  Forall normalised l -> Marshal l = Some doc -> Unmarshal doc = Some l.
Proof.
  intros Hn H. unfold Marshal in H. destruct l as [|t l].
  - now injection H as <-.
  - destruct (marshalTasks (t :: l)) as [js|] eqn:E; [|discriminate].
    injection H as <-. simpl. now apply unmarshal_marshal_tasks.
Qed.

Lemma listFromDB_normalised tbl limit offset completed assignee :
  Forall normalised (listFromDB tbl limit offset completed assignee).
Proof.
  unfold listFromDB. apply List.Forall_forall. intros t Hin.
  apply List.in_map_iff in Hin. destruct Hin as [row [<- _]].
  apply scanRow_normalised.
Qed.

End JSONFacts.

(** C10. When [List] misses the cache, reads the store and writes the
    result under its key, the cached document reads back as the very list
    that was returned, field for field, null and set states of description,
    assignee and due date included; and until the entry expires every
    [List] with the same arguments is answered with that list from the
    cache, whatever the store holds by then, and changes nothing. *)
Theorem cached_list_reads_back_equal
        r c now limit offset completed assignee doc :
  rdb r = Some c ->
  cachedList r now (cacheKeyForList limit offset completed assignee) = None ->
  JSON.Marshal (listFromDB (db r) limit offset completed assignee) = Some doc ->
  let l := listFromDB (db r) limit offset completed assignee in
  let key := cacheKeyForList limit offset completed assignee in
  let r' := mkTaskRepo (db r) (Some (Redis.Set_ c now key doc (60 * Second))) in
  List_ r now limit offset completed assignee = (Ok l, r')
  /\ JSON.Unmarshal doc = Some l
  /\ forall now' tbl',
       now' < now + 60 * Second ->
       List_ (mkTaskRepo tbl' (rdb r')) now' limit offset completed assignee
       = (Ok l, mkTaskRepo tbl' (rdb r')).
Proof.
  intros Hc Hmiss Hdoc l key r'.
  assert (Hrt : JSON.Unmarshal doc = Some l).
  { apply JSONFacts.Unmarshal_Marshal; [|exact Hdoc].
    apply JSONFacts.listFromDB_normalised. }
  subst l key r'.
  split; [|split; [exact Hrt|]].
  - unfold List_. now rewrite Hmiss, Hc, Hdoc.
  - intros now' tbl' Hlt. unfold List_.
    assert (Hhit : cachedList
                     (mkTaskRepo tbl'
                        (Some (Redis.Set_ c now
                                 (cacheKeyForList limit offset completed assignee)
                                 doc (60 * Second))))
                     now' (cacheKeyForList limit offset completed assignee)
                   = Some (listFromDB (db r) limit offset completed assignee)).
    { unfold cachedList, Redis.Get, Redis.Set_. cbn [rdb].
      rewrite lookup_insert_eq.
      destruct (Z.ltb_spec now' (now + 60 * Second)); [exact Hrt | lia]. }
    cbn [rdb]. now rewrite Hhit.
Qed.

Lemma cached_list_reads_back_equal_witness :
  let l := [mkTask "b" "two" nullString nullString true nullTime 6 6;
            mkTask "a" "one" nullString (mkNullString "bob" true) false
                   nullTime 5 5] in
  exists doc r',
    List_ twoTasksCached 7 100 0 None None = (Ok l, r')
    /\ JSON.Unmarshal doc = Some l
    /\ List_ (mkTaskRepo [] (rdb r')) 8 100 0 None None
       = (Ok l, mkTaskRepo [] (rdb r')).
Proof.
  intros l.
  destruct (JSON.Marshal (listFromDB (db twoTasksCached) 100 0 None None))
    as [doc|] eqn:Hdoc; [|vm_compute in Hdoc; discriminate].
  destruct (cached_list_reads_back_equal
              twoTasksCached ∅ 7 100 0 None None doc
              eq_refl eq_refl Hdoc) as (H1 & H2 & H3).
  exists doc. eexists. split; [exact H1|]. split; [exact H2|].
  apply (H3 8 []). vm_compute. reflexivity.
Defined.

(* ===================================================================== *)
(** * Further properties of the code *)
(* ===================================================================== *)

(** ** The table under the statements of the repository *)

Module StoreFacts.
Import SQL SQLFacts ServiceFacts Props.

Lemma select_by_id_app tbl new id :
  select_by_id (tbl ++ [new]) id
  = match select_by_id tbl id with
    | Some row => Some row
    | None => if has_id id new then Some new else None
    end.
Proof.
  unfold select_by_id. induction tbl as [|x tbl IH]; simpl.
  - now destruct (has_id id new).
  - destruct (has_id id x); [reflexivity | exact IH].
Qed.

Lemma update_row_other p now row :
  r_id row <> r_id p -> update_row p now row = row.
Proof.
  intros H. unfold update_row.
  destruct (has_id (r_id p) row) eqn:E; [|reflexivity].
  apply has_id_true in E. contradiction.
Qed.

Lemma select_by_id_update_other tbl p now id :
  id <> r_id p ->
  select_by_id (List.map (update_row p now) tbl) id = select_by_id tbl id.
Proof.
  intros Hne. rewrite select_by_id_update.
  destruct (select_by_id tbl id) as [row|] eqn:E; [|reflexivity].
  apply select_by_id_Some in E. destruct E as [_ E]. simpl.
  rewrite update_row_other; [reflexivity | congruence].
Qed.

Lemma select_by_id_delete_other tbl id id' :
  id' <> id ->
  select_by_id (List.filter (fun r => negb (has_id id r)) tbl) id'
  = select_by_id tbl id'.
Proof.
  intros Hne. unfold select_by_id.
  induction tbl as [|x tbl IH]; simpl; [reflexivity|].
  destruct (has_id id x) eqn:E; simpl.
  - apply has_id_true in E.
    assert (has_id id' x = false) as -> by (apply has_id_false; congruence).
    exact IH.
  - destruct (has_id id' x); [reflexivity | exact IH].
Qed.

Lemma ids_update tbl p now :
  List.map r_id (List.map (update_row p now) tbl) = List.map r_id tbl.
Proof.
  rewrite List.map_map. apply List.map_ext. intros row. apply update_row_id.
Qed.

Lemma NoDup_map_filter {A B} (g : A -> B) (f : A -> bool) l :
  NoDup (List.map g l) -> NoDup (List.map g (List.filter f l)).
Proof.
  induction l as [|x l IH]; simpl; intros H; [constructor|].
  inversion H as [|? ? Hx Hl]; subst.
  destruct (f x); simpl; [|now apply IH].
  constructor; [|now apply IH].
  intros Hin. apply Hx. apply list_elem_of_In. apply list_elem_of_In in Hin.
  apply List.in_map_iff in Hin.
  destruct Hin as [y [Hy Hin]]. apply List.filter_In in Hin.
  apply List.in_map_iff. exists y. tauto.
Qed.

Lemma uniqueIds_app tbl new :
  uniqueIds tbl -> select_by_id tbl (r_id new) = None ->
  uniqueIds (tbl ++ [new]).
Proof.
  unfold uniqueIds. intros Hu Hsel. rewrite List.map_app. simpl.
  rewrite select_by_id_None in Hsel.
  induction tbl as [|x tbl IH]; simpl.
  - apply NoDup_singleton.
  - inversion Hu as [|? ? Hx Hl]; subst. constructor.
    + intros Hin. apply list_elem_of_In in Hin.
      apply List.in_app_iff in Hin. destruct Hin as [Hin|[Hin|[]]].
      * apply Hx. now apply list_elem_of_In.
      * apply (Hsel x); [now left | now symmetry].
    + apply IH; [exact Hl|]. intros row Hin. apply Hsel. now right.
Qed.

(** Under unique identifiers a statement on one identifier touches one
    row. *)
Lemma unique_affected tbl id row :
  uniqueIds tbl -> select_by_id tbl id = Some row ->
  length (List.filter (has_id id) tbl) = 1%nat.
Proof.
  unfold uniqueIds, select_by_id.
  induction tbl as [|x tbl IH]; simpl; intros Hu Hsel; [discriminate|].
  inversion Hu as [|? ? Hx Hl]; subst.
  destruct (has_id id x) eqn:E; simpl.
  - f_equal. apply has_id_true in E.
    destruct (List.filter (has_id id) tbl) as [|y ys] eqn:Ef; [reflexivity|].
    exfalso. apply Hx. apply list_elem_of_In.
    assert (Hy : In y (List.filter (has_id id) tbl)) by (rewrite Ef; now left).
    apply List.filter_In in Hy. destruct Hy as [Hy Hid].
    apply has_id_true in Hid. apply List.in_map_iff. exists y.
    split; [congruence | exact Hy].
  - now apply IH.
Qed.

Lemma length_delete tbl id :
  (length (List.filter (fun r => negb (has_id id r)) tbl)
   + length (List.filter (has_id id) tbl) = length tbl)%nat.
Proof.
  induction tbl as [|x tbl IH]; simpl; [reflexivity|].
  destruct (has_id id x); simpl; lia.
Qed.

(** What a call does to the table. *)
Lemma step_table r now c :
  db (step r now c) = db r
  \/ (exists uuid task,
         c = CallCreate uuid task
         /\ GoStrings.TrimSpace (Title task) <> ""
         /\ select_by_id (db r) (ID (createdTask task uuid now)) = None
         /\ db (step r now c)
            = (db r ++ [bindTask (createdTask task uuid now)])%list)
  \/ (exists task row,
         c = CallUpdate task
         /\ select_by_id (db r) (ID task) = Some row
         /\ titleAccepted task
         /\ db (step r now c)
            = List.map (update_row (updatedRow task now row) now) (db r))
  \/ (exists id,
         c = CallDelete id
         /\ db (step r now c)
            = List.filter (fun row => negb (has_id id row)) (db r)).
Proof.
  destruct c as [uuid task|id|limit offset completed assignee|task|id|];
    cbn [step]; try (left; reflexivity).
  - destruct (String.eqb_spec (GoStrings.TrimSpace (Title task)) "") as [E|E].
    + left. now rewrite (Create_invalid r uuid now task E).
    + destruct (select_by_id (db r) (ID (createdTask task uuid now)))
        as [row|] eqn:Hsel.
      * left. now rewrite (Create_duplicate r uuid now task row E Hsel).
      * right. left. exists uuid, task. repeat split; try assumption.
        rewrite (Create_fresh r uuid now task E Hsel). cbn [snd].
        now rewrite CacheFacts.invalidate_db.
  - left. unfold Service.List_, List_.
    destruct (cachedList r now _); cbn; [reflexivity|].
    destruct (rdb r); [destruct (JSON.Marshal _)|]; reflexivity.
  - destruct (select_by_id (db r) (ID task)) as [row|] eqn:Hsel.
    + destruct (titleAccepted_dec task) as [Hacc|Hrej].
      * right. right. left. exists task, row. repeat split; try assumption.
        rewrite (Update_found r now task row Hsel Hacc). cbn [snd].
        now rewrite CacheFacts.invalidate_db.
      * left. now rewrite (Update_rejected r now task row Hsel Hrej).
    + left. now rewrite (Update_missing r now task Hsel).
  - right. right. right. exists id. split; [reflexivity|].
    unfold Service.Delete, Repositories.Delete, SQL.delete.
    destruct (0 <? Z.of_nat (length (List.filter (has_id id) (db r))));
      cbn; [now rewrite CacheFacts.invalidate_db | reflexivity].
Qed.

Lemma step_uniqueIds r now c :
  uniqueIds (db r) -> uniqueIds (db (step r now c)).
Proof.
  intros Hu.
  destruct (step_table r now c)
    as [-> | [(uuid & task & _ & _ & Hsel & ->)
             | [(task & row & _ & _ & _ & ->) | (id & _ & ->)]]].
  - exact Hu.
  - now apply uniqueIds_app.
  - unfold uniqueIds. now rewrite ids_update.
  - now apply NoDup_map_filter.
Qed.

Lemma step_titlesNonEmpty r now c :
  titlesNonEmpty (db r) -> titlesNonEmpty (db (step r now c)).
Proof.
  intros Ht.
  destruct (step_table r now c)
    as [-> | [(uuid & task & _ & Htitle & _ & ->)
             | [(task & row0 & _ & Hsel & Hacc & ->) | (id & _ & ->)]]];
    intros row Hin.
  - now apply Ht.
  - apply List.in_app_iff in Hin. destruct Hin as [Hin|[<-|[]]].
    + now apply Ht.
    + unfold createdTask. simpl.
      now destruct (ID task =? "")%string.
  - apply List.in_map_iff in Hin. destruct Hin as [old [<- Hin]].
    unfold update_row. destruct (has_id _ old); [|now apply Ht].
    simpl. unfold mergedTitle.
    destruct (String.eqb_spec (Title task) "") as [E|E].
    + apply Ht. apply select_by_id_Some in Hsel. tauto.
    + destruct Hacc as [Hacc|Hacc]; [contradiction | exact Hacc].
  - apply List.filter_In in Hin. now apply Ht.
Qed.

Lemma stepGauge_tracks r now c gauge :
  uniqueIds (db r) ->
  gauge = Z.of_nat (length (db r)) ->
  stepGauge r gauge now c = Z.of_nat (length (db (step r now c))).
Proof.
  intros Hu ->.
  destruct c as [uuid task|id|limit offset completed assignee|task|id|];
    cbn [stepGauge step]; try reflexivity.
  - destruct (String.eqb_spec (GoStrings.TrimSpace (Title task)) "") as [E|E].
    + now rewrite (Create_invalid r uuid now task E).
    + destruct (select_by_id (db r) (ID (createdTask task uuid now)))
        as [row|] eqn:Hsel.
      * now rewrite (Create_duplicate r uuid now task row E Hsel).
      * rewrite (Create_fresh r uuid now task E Hsel). cbn [fst snd].
        rewrite CacheFacts.invalidate_db. cbn [db Metric.afterCreate].
        unfold Metric.IncTaskCount. rewrite length_app. simpl. lia.
  - destruct (step_table r now (CallList limit offset completed assignee))
      as [H | [(? & ? & [=] & _) | [(? & ? & [=] & _) | (? & [=] & _)]]].
    cbn [step] in H. now rewrite H.
  - destruct (step_table r now (CallUpdate task))
      as [H | [(? & ? & [=] & _) | [(t' & row & [= <-] & _ & _ & H)
                                   | (? & [=] & _)]]];
      cbn [step] in H; rewrite H; [reflexivity|].
    now rewrite length_map.
  - unfold Service.Delete, Repositories.Delete, SQL.delete.
    pose proof (length_delete (db r) id) as Hlen.
    destruct (select_by_id (db r) id) as [row|] eqn:Hsel.
    + rewrite (unique_affected (db r) id row Hu Hsel) in *.
      replace (0 <? Z.of_nat 1) with true by reflexivity.
      cbn. rewrite CacheFacts.invalidate_db. cbn [db].
      unfold Metric.DecTaskCount. lia.
    + pose proof (proj2 (affected_zero (db r) id) Hsel) as Hz.
      rewrite Hz. cbn. rewrite delete_untouched by exact Hsel. reflexivity.
Qed.

End StoreFacts.

(** Identifiers stay unique: whatever calls are made on a store whose rows
    have distinct identifiers, the rows still have distinct identifiers
    afterwards ([Create] is refused when the identifier is taken, [Update]
    never rewrites an identifier). *)
Theorem identifiers_stay_unique r calls :
  Props.uniqueIds (db r) -> Props.uniqueIds (db (run r calls)).
Proof.
  revert r. induction calls as [|[now c] calls IH]; intros r Hu; [exact Hu|].
  cbn [run]. apply IH. now apply StoreFacts.step_uniqueIds.
Qed.

Lemma identifiers_stay_unique_witness :
  List.map SQL.r_id (db (run oneTask Props.moreCalls)) = ["a"; "u2"]
  /\ Props.uniqueIds (db (run oneTask Props.moreCalls)).
Proof.
  split; [reflexivity|].
  apply (identifiers_stay_unique oneTask Props.moreCalls).
  unfold Props.uniqueIds. simpl. apply NoDup_singleton.
Defined.

(** Titles stay non-empty: on a store whose titles are not empty, no
    sequence of calls leaves a row with an empty title ([Create] and
    [Update] refuse a title that trims to nothing and store the trimmed
    one). *)
Theorem titles_stay_non_empty r calls :
  Props.titlesNonEmpty (db r) -> Props.titlesNonEmpty (db (run r calls)).
Proof.
  revert r. induction calls as [|[now c] calls IH]; intros r Ht; [exact Ht|].
  cbn [run]. apply IH. now apply StoreFacts.step_titlesNonEmpty.
Qed.

Lemma titles_stay_non_empty_witness :
  List.map SQL.r_title (db (run oneTask Props.moreCalls)) = ["old"; "z"]
  /\ Props.titlesNonEmpty (db (run oneTask Props.moreCalls)).
Proof.
  split; [reflexivity|].
  apply (titles_stay_non_empty oneTask Props.moreCalls).
  intros row [<-|[]]. simpl. discriminate.
Defined.

(** The gauge follows the table: set from the count of the table at start,
    incremented by each successful create and decremented by each
    successful delete, it equals the number of rows after any sequence of
    calls, provided identifiers are unique at start. *)
Theorem gauge_equals_row_count r calls :
  Props.uniqueIds (db r) ->
  Props.runGauge r (Metric.UpdateTasksCountFromDB (db r)) calls
  = Metric.UpdateTasksCountFromDB (db (run r calls)).
Proof.
  unfold Metric.UpdateTasksCountFromDB, Metric.SetTasksCount, SQL.count.
  assert (Hall : forall l : list SQL.Row, List.filter (fun _ => true) l = l).
  { induction l as [|x l IH]; simpl; [reflexivity | now rewrite IH]. }
  rewrite !Hall.
  generalize (eq_refl (Z.of_nat (length (db r)))).
  generalize (Z.of_nat (length (db r))) at 1 3. intros gauge Hg.
  revert r gauge Hg.
  induction calls as [|[now c] calls IH]; intros r gauge Hg Hu; [exact Hg|].
  cbn [run Props.runGauge]. apply IH.
  - now apply StoreFacts.stepGauge_tracks.
  - now apply StoreFacts.step_uniqueIds.
Qed.

Lemma gauge_equals_row_count_witness :
  Props.runGauge oneTask (Metric.UpdateTasksCountFromDB (db oneTask))
                 Props.moreCalls = 2
  /\ Props.runGauge oneTask (Metric.UpdateTasksCountFromDB (db oneTask))
                    Props.moreCalls
     = Metric.UpdateTasksCountFromDB (db (run oneTask Props.moreCalls)).
Proof.
  split; [reflexivity|].
  apply (gauge_equals_row_count oneTask Props.moreCalls).
  unfold Props.uniqueIds. simpl. apply NoDup_singleton.
Defined.

(** ** Writes: what they change and what they leave *)

Module WriteFacts.
Import SQL SQLFacts ServiceFacts InvalidationFacts StoreFacts Props.

Lemma filter_true {A} (l : list A) : List.filter (fun _ => true) l = l.
Proof. induction l as [|x l IH]; simpl; [reflexivity | now rewrite IH]. Qed.

Lemma Count_length r : Count r = Ok (Z.of_nat (length (db r))).
Proof. unfold Count, SQL.count. now rewrite filter_true. Qed.

Lemma delete_fresh_app tbl new :
  select_by_id tbl (r_id new) = None ->
  List.filter (fun r => negb (has_id (r_id new) r)) (tbl ++ [new]) = tbl.
Proof.
  intros H. rewrite List.filter_app, delete_untouched by exact H. simpl.
  assert (has_id (r_id new) new = true) as -> by now apply has_id_true.
  simpl. apply List.app_nil_r.
Qed.

Lemma invalidate_sameOtherKeys tbl c c' :
  rdb (invalidateListCache (mkTaskRepo tbl (Some c))) = Some c' ->
  sameOtherKeys c c'.
Proof.
  intros H k Hk.
  exact (CacheFacts.invalidate_keeps (mkTaskRepo tbl (Some c)) c c' k
           eq_refl H Hk).
Qed.

Lemma invalidate_rdb_Some tbl c :
  exists c', rdb (invalidateListCache (mkTaskRepo tbl (Some c))) = Some c'.
Proof. unfold invalidateListCache. simpl. eexists. reflexivity. Qed.

End WriteFacts.

(** A successful create adds exactly one task: the identifier was free
    before, the task is read back under it afterwards, every other
    identifier reads as before, and the count grows by one. *)
Theorem create_adds_exactly_one_task r uuid now task t r' :
  Service.Create r uuid now task = (Ok t, r') ->
  GetByID r (ID t) = Err ErrNotFound
  /\ GetByID r' (ID t) = Ok (SQL.scanRow (SQL.bindTask t))
  /\ (forall id, id <> ID t -> GetByID r' id = GetByID r id)
  /\ Count r' = Ok (Z.of_nat (length (db r)) + 1).
Proof.
  intros H.
  pose proof (InvalidationFacts.Create_Ok_stored r uuid now task t r' H) as Hst.
  apply InvalidationFacts.Create_Ok_inv in H. destruct H as (_ & Hsel & ->).
  split; [unfold GetByID; now rewrite Hsel|].
  split; [exact Hst|]. split.
  - intros id Hne. unfold GetByID. rewrite CacheFacts.invalidate_db. cbn [db].
    rewrite StoreFacts.select_by_id_app.
    destruct (SQL.select_by_id (db r) id); [reflexivity|].
    assert (SQL.has_id id (SQL.bindTask t) = false) as ->.
    { apply SQLFacts.has_id_false. simpl. congruence. }
    reflexivity.
  - rewrite WriteFacts.Count_length, CacheFacts.invalidate_db. cbn [db].
    rewrite length_app. simpl. f_equal. lia.
Qed.

Lemma create_adds_exactly_one_task_witness :
  exists t r',
    Service.Create oneTask "u1" 7 (with_Title zeroTask " x ") = (Ok t, r')
    /\ GetByID oneTask (ID t) = Err ErrNotFound
    /\ GetByID r' (ID t) = Ok (SQL.scanRow (SQL.bindTask t))
    /\ (forall id, id <> ID t -> GetByID r' id = GetByID oneTask id)
    /\ Count r' = Ok 2.
Proof.
  eexists _, _. split; [vm_compute; reflexivity|].
  apply (create_adds_exactly_one_task oneTask "u1" 7 (with_Title zeroTask " x ")).
  vm_compute. reflexivity.
Defined.

(** A successful update touches one identifier: the task returned carries
    the identifier of the request and is the one read back, every other
    identifier reads as before, and the identifiers of the table, their
    order and their number are unchanged. *)
Theorem update_touches_one_identifier r now task t r' :
  Service.Update r now task = (Ok t, r') ->
  ID t = ID task
  /\ GetByID r' (ID task) = Ok t
  /\ (forall id, id <> ID task -> GetByID r' id = GetByID r id)
  /\ List.map SQL.r_id (db r') = List.map SQL.r_id (db r)
  /\ Count r' = Count r.
Proof.
  intros H. apply InvalidationFacts.Update_Ok_inv in H.
  destruct H as (row & Hsel & -> & ->).
  pose proof (SQLFacts.select_by_id_Some _ _ _ Hsel) as [_ Hid].
  split; [exact Hid|]. split; [|split; [|split]].
  - unfold GetByID. rewrite CacheFacts.invalidate_db. cbn [db].
    rewrite SQLFacts.select_by_id_update, Hsel. cbn [option_map].
    now rewrite ServiceFacts.updatedRow_fixed.
  - intros id Hne. unfold GetByID. rewrite CacheFacts.invalidate_db. cbn [db].
    rewrite StoreFacts.select_by_id_update_other; [reflexivity|].
    simpl. congruence.
  - rewrite CacheFacts.invalidate_db. cbn [db]. apply StoreFacts.ids_update.
  - rewrite !WriteFacts.Count_length, CacheFacts.invalidate_db. cbn [db].
    now rewrite length_map.
Qed.

Lemma update_touches_one_identifier_witness :
  exists t r',
    Service.Update twoTasks 7 (with_Title (with_ID zeroTask "b") " z ")
    = (Ok t, r')
    /\ ID t = "b"
    /\ GetByID r' "b" = Ok t
    /\ (forall id, id <> "b" -> GetByID r' id = GetByID twoTasks id)
    /\ List.map SQL.r_id (db r') = ["a"; "b"]
    /\ Count r' = Count twoTasks.
Proof.
  eexists _, _. split; [vm_compute; reflexivity|].
  apply (update_touches_one_identifier
           twoTasks 7 (with_Title (with_ID zeroTask "b") " z ")).
  vm_compute. reflexivity.
Defined.

(** A successful delete removes the task and nothing else: the identifier
    is not found afterwards, every other identifier reads as before, and,
    identifiers being unique, the count drops by one. *)
Theorem delete_removes_one_task r id r' :
  Service.Delete r id = (None, r') ->
  GetByID r' id = Err ErrNotFound
  /\ (forall id', id' <> id -> GetByID r' id' = GetByID r id')
  /\ (Props.uniqueIds (db r) ->
      Count r' = Ok (Z.of_nat (length (db r)) - 1)).
Proof.
  intros H.
  assert (Hfound : exists row, SQL.select_by_id (db r) id = Some row).
  { destruct (SQL.select_by_id (db r) id) as [row|] eqn:Hsel; [now exists row|].
    exfalso. revert H.
    unfold Service.Delete, Repositories.Delete, SQL.delete.
    rewrite (proj2 (SQLFacts.affected_zero (db r) id) Hsel). cbn. discriminate. }
  destruct Hfound as [row Hsel].
  apply InvalidationFacts.Delete_Ok_inv in H. subst r'.
  split; [|split].
  - unfold GetByID. rewrite CacheFacts.invalidate_db. cbn [db].
    now rewrite SQLFacts.select_by_id_delete.
  - intros id' Hne. unfold GetByID. rewrite CacheFacts.invalidate_db. cbn [db].
    now rewrite StoreFacts.select_by_id_delete_other.
  - intros Hu. rewrite WriteFacts.Count_length, CacheFacts.invalidate_db.
    cbn [db]. pose proof (StoreFacts.length_delete (db r) id) as Hlen.
    rewrite (StoreFacts.unique_affected (db r) id row Hu Hsel) in Hlen.
    f_equal. lia.
Qed.

Lemma delete_removes_one_task_witness :
  exists r',
    Service.Delete twoTasks "a" = (None, r')
    /\ GetByID r' "a" = Err ErrNotFound
    /\ (forall id', id' <> "a" -> GetByID r' id' = GetByID twoTasks id')
    /\ Count r' = Ok 1.
Proof.
  eexists. split; [vm_compute; reflexivity|].
  destruct (delete_removes_one_task
              twoTasks "a"
              (mkTaskRepo [SQL.mkRow "b" "two" None None true None 6 6] None)
              eq_refl) as (H1 & H2 & H3).
  split; [exact H1|]. split; [exact H2|].
  apply H3. unfold Props.uniqueIds. simpl.
  apply NoDup_cons. split; [|apply NoDup_singleton].
  intros Hin. apply list_elem_of_In in Hin. destruct Hin as [Hin|[]].
  discriminate.
Defined.

(** Create, then delete, then get: the task a create returns can be
    deleted by its identifier, after which it is not found and the table is
    the one before the create. *)
Theorem create_then_delete_restores_table r uuid now task t r1 :
  Service.Create r uuid now task = (Ok t, r1) ->
  exists r2,
    Service.Delete r1 (ID t) = (None, r2)
    /\ GetByID r2 (ID t) = Err ErrNotFound
    /\ db r2 = db r.
Proof.
  intros H. apply InvalidationFacts.Create_Ok_inv in H.
  destruct H as (_ & Hsel & ->).
  assert (Hsel1 : SQL.select_by_id (db r ++ [SQL.bindTask t]) (ID t)
                  = Some (SQL.bindTask t)).
  { exact (SQLFacts.select_by_id_insert
             (db r) (SQL.bindTask t) _
             (SQLFacts.insert_fresh (db r) (SQL.bindTask t) Hsel)). }
  pose proof (SQLFacts.affected_pos _ _ _ Hsel1) as Hpos.
  eexists. split.
  - unfold Service.Delete, Repositories.Delete, SQL.delete.
    rewrite CacheFacts.invalidate_db. cbn [db rdb].
    destruct (Z.ltb_spec 0 (Z.of_nat (length (List.filter (SQL.has_id (ID t))
                                                (db r ++ [SQL.bindTask t])))));
      [|lia].
    cbn. reflexivity.
  - split.
    + unfold GetByID. rewrite CacheFacts.invalidate_db. cbn [db].
      now rewrite SQLFacts.select_by_id_delete.
    + rewrite CacheFacts.invalidate_db. cbn [db].
      exact (WriteFacts.delete_fresh_app (db r) (SQL.bindTask t) Hsel).
Qed.

Lemma create_then_delete_restores_table_witness :
  exists t r1 r2,
    Service.Create oneTask "u1" 7 (with_Title zeroTask " x ") = (Ok t, r1)
    /\ Service.Delete r1 (ID t) = (None, r2)
    /\ GetByID r2 (ID t) = Err ErrNotFound
    /\ db r2 = db oneTask.
Proof.
  destruct (create_then_delete_restores_table
              oneTask "u1" 7 (with_Title zeroTask " x ")
              (createdTask (with_Title zeroTask " x ") "u1" 7)
              (snd (Service.Create oneTask "u1" 7 (with_Title zeroTask " x ")))
              eq_refl) as (r2 & H).
  eexists _, _, r2. split; [vm_compute; reflexivity | exact H].
Defined.

(** A write that fails changes nothing, neither the table nor the cache
    (no invalidation): a create fails for a title that trims to nothing or
    for a taken identifier, an update for an unknown identifier or a title
    of white space only, a delete for an unknown identifier. *)
Theorem failed_write_changes_nothing r uuid now task id :
  (forall e r',
      Service.Create r uuid now task = (Err e, r') ->
      r' = r
      /\ (e = ErrInvalidInput /\ GoStrings.TrimSpace (Title task) = ""
          \/ e = ErrUniqueViolation
             /\ GetByID r (ID (createdTask task uuid now)) <> Err ErrNotFound))
  /\ (forall e r',
         Service.Update r now task = (Err e, r') ->
         r' = r
         /\ (e = ErrNotFound /\ GetByID r (ID task) = Err ErrNotFound
             \/ e = ErrInvalidInput /\ ~ titleAccepted task))
  /\ (forall e r',
         Service.Delete r id = (Some e, r') ->
         r' = r /\ e = ErrNotFound /\ GetByID r id = Err ErrNotFound).
Proof.
  split; [|split].
  - intros e r' H.
    destruct (String.eqb_spec (GoStrings.TrimSpace (Title task)) "") as [E|E].
    + rewrite (ServiceFacts.Create_invalid r uuid now task E) in H.
      injection H as <- <-. split; [reflexivity | left; split; trivial].
    + destruct (SQL.select_by_id (db r) (ID (createdTask task uuid now)))
        as [row|] eqn:Hsel.
      * rewrite (ServiceFacts.Create_duplicate r uuid now task row E Hsel) in H.
        injection H as <- <-. split; [reflexivity | right; split; trivial].
        unfold GetByID. rewrite Hsel. discriminate.
      * rewrite (ServiceFacts.Create_fresh r uuid now task E Hsel) in H.
        discriminate.
  - intros e r' H.
    destruct (SQL.select_by_id (db r) (ID task)) as [row|] eqn:Hsel.
    + destruct (ServiceFacts.titleAccepted_dec task) as [Hacc|Hrej].
      * rewrite (ServiceFacts.Update_found r now task row Hsel Hacc) in H.
        discriminate.
      * rewrite (ServiceFacts.Update_rejected r now task row Hsel Hrej) in H.
        injection H as <- <-. split; [reflexivity | right; split; trivial].
    + rewrite (ServiceFacts.Update_missing r now task Hsel) in H.
      injection H as <- <-. split; [reflexivity | left; split; trivial].
      unfold GetByID. now rewrite Hsel.
  - intros e r' H. revert H.
    unfold Service.Delete, Repositories.Delete, SQL.delete.
    destruct (SQL.select_by_id (db r) id) as [row|] eqn:Hsel.
    + pose proof (SQLFacts.affected_pos _ _ _ Hsel) as Hpos.
      destruct (Z.ltb_spec 0 (Z.of_nat (length (List.filter (SQL.has_id id)
                                                            (db r)))));
        [cbn; discriminate | lia].
    + rewrite (proj2 (SQLFacts.affected_zero (db r) id) Hsel). cbn.
      rewrite SQLFacts.delete_untouched by exact Hsel.
      intros [= <- <-]. split; [now destruct r|].
      split; [reflexivity|]. unfold GetByID. now rewrite Hsel.
Qed.

Lemma failed_write_changes_nothing_witness :
  Service.Create cachedRepo "a" 7 (with_Title zeroTask "dup")
  = (Err ErrUniqueViolation, cachedRepo)
  /\ Service.Update cachedRepo 7 (with_Title (with_ID zeroTask "a") "   ")
     = (Err ErrInvalidInput, cachedRepo)
  /\ Service.Delete cachedRepo "missing" = (Some ErrNotFound, cachedRepo).
Proof.
  destruct (failed_write_changes_nothing
              cachedRepo "a" 7 (with_Title zeroTask "dup") "missing")
    as (H1 & _ & H3).
  destruct (failed_write_changes_nothing
              cachedRepo "a" 7 (with_Title (with_ID zeroTask "a") "   ") "missing")
    as (_ & H2 & _).
  split; [|split].
  - destruct (Service.Create cachedRepo "a" 7 (with_Title zeroTask "dup"))
      as [[t|e] r'] eqn:E; [vm_compute in E; discriminate|].
    destruct (H1 e r' eq_refl) as [-> [[-> Ht]|[-> _]]];
      [vm_compute in Ht; discriminate | reflexivity].
  - destruct (Service.Update cachedRepo 7
                             (with_Title (with_ID zeroTask "a") "   "))
      as [[t|e] r'] eqn:E; [vm_compute in E; discriminate|].
    destruct (H2 e r' eq_refl) as [-> [[-> Hg]|[-> _]]];
      [vm_compute in Hg; discriminate | reflexivity].
  - destruct (Service.Delete cachedRepo "missing") as [[e|] r'] eqn:E;
      [|vm_compute in E; discriminate].
    destruct (H3 e r' eq_refl) as (-> & -> & _). reflexivity.
Defined.

(** ** Listing: order, bounds and pages *)

Module ListingFacts.
Import SQL SQLFacts Props.

Lemma insert_desc_sorted r l :
  StronglySorted newerFirst l -> StronglySorted newerFirst (insert_desc r l).
Proof.
  induction l as [|x l IH]; simpl; intros Hs.
  - repeat constructor.
  - inversion Hs as [|? ? Hl Hx]; subst.
    destruct (Z.leb_spec (r_created_at x) (r_created_at r)) as [Hle|Hlt].
    + constructor; [exact Hs|]. constructor; [exact Hle|].
      apply List.Forall_forall. intros y Hy.
      pose proof (proj1 (List.Forall_forall _ _) Hx y Hy) as Hxy.
      unfold newerFirst in *. lia.
    + constructor; [now apply IH|].
      apply List.Forall_forall. intros y Hy.
      apply ListFacts.insert_desc_In in Hy. destruct Hy as [->|Hy].
      * unfold newerFirst. lia.
      * exact (proj1 (List.Forall_forall _ _) Hx y Hy).
Qed.

Lemma order_by_sorted l :
  StronglySorted newerFirst (order_by_created_at_desc l).
Proof.
  unfold order_by_created_at_desc. induction l as [|x l IH]; simpl.
  - constructor.
  - now apply insert_desc_sorted.
Qed.

Lemma sorted_drop {A} (R : A -> A -> Prop) n l :
  StronglySorted R l -> StronglySorted R (drop n l).
Proof.
  revert l. induction n as [|n IH]; intros [|x l] Hs; simpl; try exact Hs.
  inversion Hs; subst. now apply IH.
Qed.

Lemma sorted_take {A} (R : A -> A -> Prop) n l :
  StronglySorted R l -> StronglySorted R (take n l).
Proof.
  revert l. induction n as [|n IH]; intros [|x l] Hs; simpl;
    try constructor.
  - inversion Hs; subst. now apply IH.
  - inversion Hs; subst. now apply Forall_take.
Qed.

Lemma sorted_scan l :
  StronglySorted newerFirst l -> mostRecentFirst (List.map scanRow l).
Proof.
  unfold mostRecentFirst. induction 1 as [|x l Hl IH Hx]; simpl; constructor.
  - exact IH.
  - apply List.Forall_forall. intros t Ht. apply List.in_map_iff in Ht.
    destruct Ht as [y [<- Hy]].
    exact (proj1 (List.Forall_forall _ _) Hx y Hy).
Qed.

Lemma In_take {A} n (l : list A) x : In x (take n l) -> In x l.
Proof.
  revert l. induction n as [|n IH]; intros [|y l]; simpl; try tauto.
  intros [->|H]; [now left | right; now apply IH].
Qed.

Lemma In_drop {A} n (l : list A) x : In x (drop n l) -> In x l.
Proof.
  revert l. induction n as [|n IH]; intros [|y l]; simpl; try tauto.
  intros H. right. now apply IH.
Qed.

Lemma listFromDB_effective tbl limit offset completed assignee :
  listFromDB tbl limit offset completed assignee
  = List.map scanRow
             (take (Z.to_nat (effectiveLimit limit))
                   (drop (Z.to_nat (effectiveOffset offset))
                         (order_by_created_at_desc
                            (List.filter (listWhere completed assignee) tbl)))).
Proof. reflexivity. Qed.

End ListingFacts.

(** A listing read from the store is ordered by creation time, most recent
    first, and holds only stored tasks that match the filters. *)
Theorem listing_is_ordered_and_filtered r limit offset completed assignee :
  Props.mostRecentFirst (listFromDB (db r) limit offset completed assignee)
  /\ forall t,
       In t (listFromDB (db r) limit offset completed assignee) ->
       In t (storedTasks r) /\ matchesFilters completed assignee t = true.
Proof.
  rewrite ListingFacts.listFromDB_effective. split.
  - apply ListingFacts.sorted_scan, ListingFacts.sorted_take,
      ListingFacts.sorted_drop, ListingFacts.order_by_sorted.
  - intros t Hin. apply List.in_map_iff in Hin. destruct Hin as [row [<- Hin]].
    apply ListingFacts.In_take, ListingFacts.In_drop, ListFacts.order_by_In,
      List.filter_In in Hin.
    destruct Hin as [Hin Hw]. split.
    + unfold storedTasks. now apply List.in_map.
    + now rewrite <- ListFacts.listWhere_matchesFilters.
Qed.

Lemma listing_is_ordered_and_filtered_witness :
  listFromDB (db twoTasks) 100 0 (Some true) None
  = [mkTask "b" "two" nullString nullString true nullTime 6 6]
  /\ In (mkTask "b" "two" nullString nullString true nullTime 6 6)
        (storedTasks twoTasks)
  /\ matchesFilters (Some true) None
                    (mkTask "b" "two" nullString nullString true nullTime 6 6)
     = true.
Proof.
  split; [reflexivity|].
  apply (listing_is_ordered_and_filtered twoTasks 100 0 (Some true) None).
  simpl. left. reflexivity.
Defined.

(** A listing read from the store has at most [limit] tasks, and at most
    100 when the limit is zero or negative: such a limit reads the store as
    the limit 100 does and a negative offset as the offset 0 does, though
    under cache keys of their own. *)
Theorem listing_respects_limit r limit offset completed assignee :
  Z.of_nat (length (listFromDB (db r) limit offset completed assignee))
  <= Props.effectiveLimit limit
  /\ 0 < Props.effectiveLimit limit
  /\ listFromDB (db r) limit offset completed assignee
     = listFromDB (db r) (Props.effectiveLimit limit)
                  (Props.effectiveOffset offset) completed assignee
  /\ (limit <= 0 ->
      Props.effectiveLimit limit = 100
      /\ cacheKeyForList limit offset completed assignee
         <> cacheKeyForList 100 offset completed assignee)
  /\ (offset < 0 ->
      Props.effectiveOffset offset = 0
      /\ cacheKeyForList limit offset completed assignee
         <> cacheKeyForList limit 0 completed assignee).
Proof.
  assert (Hpos : 0 < Props.effectiveLimit limit).
  { unfold Props.effectiveLimit. destruct (Z.leb_spec limit 0); lia. }
  split; [|split; [exact Hpos|split; [|split]]].
  - rewrite ListingFacts.listFromDB_effective, length_map, length_take. lia.
  - unfold listFromDB, Props.effectiveLimit, Props.effectiveOffset.
    destruct (Z.leb_spec limit 0), (Z.ltb_spec offset 0); simpl;
      repeat match goal with
             | |- context [?a <=? ?b] => destruct (Z.leb_spec a b); try lia
             | |- context [?a <? ?b] => destruct (Z.ltb_spec a b); try lia
             end; reflexivity.
  - intros Hle. split.
    + unfold Props.effectiveLimit. destruct (Z.leb_spec limit 0); lia.
    + intros Hk. apply KeyFacts.cacheKeyForList_inj in Hk. lia.
  - intros Hlt. split.
    + unfold Props.effectiveOffset. destruct (Z.ltb_spec offset 0); lia.
    + intros Hk. apply KeyFacts.cacheKeyForList_inj in Hk. lia.
Qed.

Lemma listing_respects_limit_witness :
  length (listFromDB (db twoTasks) 1 0 None None) = 1%nat
  /\ listFromDB (db twoTasks) (-3) (-5) None None
     = listFromDB (db twoTasks) 100 0 None None
  /\ cacheKeyForList (-3) 0 None None <> cacheKeyForList 100 0 None None.
Proof.
  split; [reflexivity|]. split; [reflexivity|].
  apply (listing_respects_limit twoTasks (-3) 0 None None). lia.
Defined.

Module PagingFacts.
Import SQL SQLFacts Props.

Lemma insert_desc_perm r l : Permutation (insert_desc r l) (r :: l).
Proof.
  induction l as [|x l IH]; simpl; [reflexivity|].
  destruct (r_created_at x <=? r_created_at r); [reflexivity|].
  rewrite IH. apply perm_swap.
Qed.

Lemma order_by_perm l : Permutation (order_by_created_at_desc l) l.
Proof.
  unfold order_by_created_at_desc. induction l as [|x l IH]; simpl.
  - reflexivity.
  - rewrite insert_desc_perm. now constructor.
Qed.

Lemma distinctCreation_inj tbl x y :
  distinctCreation tbl -> In x tbl -> In y tbl ->
  r_created_at x = r_created_at y -> x = y.
Proof.
  unfold distinctCreation. induction tbl as [|z tbl IH]; simpl; [tauto|].
  intros Hnd Hx Hy E. apply NoDup_cons in Hnd. destruct Hnd as [Hz Hnd].
  destruct Hx as [->|Hx], Hy as [->|Hy].
  - reflexivity.
  - exfalso. apply Hz. rewrite E. apply list_elem_of_In.
    now apply List.in_map.
  - exfalso. apply Hz. rewrite <- E. apply list_elem_of_In.
    now apply List.in_map.
  - now apply IH.
Qed.

(** Two orderings of the same rows agree where rows that may stand either
    way round are equal. *)
Lemma sorted_perm_unique (l1 : list Row) : forall l2 : list Row,
  (forall x y, x ∈ l1 -> y ∈ l2 -> newerFirst x y -> newerFirst y x -> x = y) ->
  StronglySorted newerFirst l1 -> StronglySorted newerFirst l2 ->
  Permutation l1 l2 -> l1 = l2.
Proof.
  intros l2 Hasym Hl1. revert l2 Hasym.
  induction Hl1 as [|x1 l1 ? IH Hx1]; intros l2 Hasym Hl2 E.
  { symmetry. now apply Permutation_nil. }
  destruct Hl2 as [|x2 l2 ? Hx2].
  { now apply Permutation_nil_r in E. }
  assert (x1 = x2); subst.
  { rewrite Forall_forall in Hx1, Hx2.
    assert (x2 ∈ x1 :: l1) as Hx2' by (rewrite E; left).
    assert (x1 ∈ x2 :: l2) as Hx1' by (rewrite <- E; left).
    apply elem_of_cons in Hx1', Hx2'.
    destruct Hx1' as [->|Hx1']; [reflexivity|].
    destruct Hx2' as [->|Hx2']; [reflexivity|].
    apply Hasym; [left | left | now apply Hx1 | now apply Hx2]. }
  f_equal. apply IH; [|assumption|].
  - intros x y Hx Hy. apply Hasym; now right.
  - now apply (Permutation_cons_inv (a := x2)).
Qed.

(** Where no two rows were created at the same instant, the statement has
    one answer only. *)
Lemma orderedAnswer_unique cond tbl answer :
  distinctCreation tbl -> orderedAnswer cond tbl answer ->
  answer = order_by_created_at_desc (List.filter cond tbl).
Proof.
  intros Hnd [Hperm Hsorted].
  apply sorted_perm_unique.
  - intros x y Hx Hy Hxy Hyx. unfold newerFirst in Hxy, Hyx.
    apply (distinctCreation_inj tbl); [exact Hnd| | |lia].
    + apply list_elem_of_In in Hx.
      apply (Permutation_in _ Hperm) in Hx.
      now apply List.filter_In in Hx.
    + apply list_elem_of_In in Hy. apply ListFacts.order_by_In in Hy.
      now apply List.filter_In in Hy.
  - exact Hsorted.
  - apply ListingFacts.order_by_sorted.
  - rewrite Hperm. symmetry. apply order_by_perm.
Qed.

Lemma pageOf_listFromDB tbl limit offset completed assignee :
  0 < limit -> 0 <= offset ->
  pageOf (order_by_created_at_desc
            (List.filter (listWhere completed assignee) tbl)) limit offset
  = listFromDB tbl limit offset completed assignee.
Proof.
  intros Hl Ho. unfold pageOf, listFromDB, SQL.select.
  destruct (Z.leb_spec limit 0); [lia|].
  destruct (Z.ltb_spec offset 0); [lia|]. reflexivity.
Qed.

End PagingFacts.

(** Pages fit together where no two rows were created at the same instant.
    The statement [List] sends orders by [created_at] only; with distinct
    instants it has one answer, the one [listFromDB] reads.  Hence, with a
    positive limit and a non-negative offset, whatever answers the database
    gives to the three statements, the page at [offset] followed by the
    page at [offset + limit] is the page of twice the limit at [offset]:
    between two pages read from the same table no task is skipped and none
    is repeated. *)
Theorem consecutive_pages_concatenate
        r limit offset completed assignee answer1 answer2 answer3 :
  0 < limit -> 0 <= offset ->
  Props.distinctCreation (db r) ->
  Props.orderedAnswer (listWhere completed assignee) (db r) answer1 ->
  Props.orderedAnswer (listWhere completed assignee) (db r) answer2 ->
  Props.orderedAnswer (listWhere completed assignee) (db r) answer3 ->
  Props.pageOf answer1 limit offset
  = listFromDB (db r) limit offset completed assignee
  /\ Props.pageOf answer2 limit (offset + limit)
     = listFromDB (db r) limit (offset + limit) completed assignee
  /\ Props.pageOf answer3 (2 * limit) offset
     = listFromDB (db r) (2 * limit) offset completed assignee
  /\ (Props.pageOf answer1 limit offset
      ++ Props.pageOf answer2 limit (offset + limit))%list
     = Props.pageOf answer3 (2 * limit) offset.
Proof.
  intros Hl Ho Hnd H1 H2 H3.
  rewrite (PagingFacts.orderedAnswer_unique _ _ _ Hnd H1).
  rewrite (PagingFacts.orderedAnswer_unique _ _ _ Hnd H2).
  rewrite (PagingFacts.orderedAnswer_unique _ _ _ Hnd H3).
  split; [apply PagingFacts.pageOf_listFromDB; lia|].
  split; [apply PagingFacts.pageOf_listFromDB; lia|].
  split; [apply PagingFacts.pageOf_listFromDB; lia|].
  unfold Props.pageOf. rewrite <- List.map_app. f_equal.
  replace (Z.to_nat (offset + limit))
    with (Z.to_nat offset + Z.to_nat limit)%nat by lia.
  replace (Z.to_nat (2 * limit))
    with (Z.to_nat limit + Z.to_nat limit)%nat by lia.
  rewrite <- drop_drop. apply take_take_drop.
Qed.

Lemma consecutive_pages_concatenate_witness :
  Props.distinctCreation (db twoTasks)
  /\ listFromDB (db twoTasks) 1 0 None None
     = [mkTask "b" "two" (mkNullString "" false) (mkNullString "" false) true
               nullTime 6 6]
  /\ listFromDB (db twoTasks) 1 1 None None
     = [mkTask "a" "one" (mkNullString "" false) (mkNullString "bob" true)
               false nullTime 5 5]
  /\ (Props.pageOf [SQL.mkRow "b" "two" None None true None 6 6;
                    SQL.mkRow "a" "one" None (Some "bob") false None 5 5] 1 0
      ++ Props.pageOf [SQL.mkRow "b" "two" None None true None 6 6;
                       SQL.mkRow "a" "one" None (Some "bob") false None 5 5]
                      1 1)%list
     = Props.pageOf [SQL.mkRow "b" "two" None None true None 6 6;
                     SQL.mkRow "a" "one" None (Some "bob") false None 5 5] 2 0.
Proof.
  assert (Hnd : Props.distinctCreation (db twoTasks)).
  { unfold Props.distinctCreation. simpl.
    apply NoDup_cons. split; [rewrite list_elem_of_In; simpl; lia|].
    apply NoDup_singleton. }
  assert (Hans : Props.orderedAnswer (listWhere None None) (db twoTasks)
                   [SQL.mkRow "b" "two" None None true None 6 6;
                    SQL.mkRow "a" "one" None (Some "bob") false None 5 5]).
  { split; [simpl; apply perm_swap|].
    repeat constructor. unfold Props.newerFirst. simpl. lia. }
  split; [exact Hnd|]. split; [reflexivity|]. split; [reflexivity|].
  apply (consecutive_pages_concatenate twoTasks 1 0 None None _ _ _);
    [lia | lia | exact Hnd | exact Hans | exact Hans | exact Hans].
Defined.

(** ** The cache: expiry, entries that do not decode, other keys *)

Module ExpiryFacts.

Lemma cachedList_stays_missed r now now' key :
  cachedList r now key = None -> now <= now' ->
  cachedList r now' key = None.
Proof.
  unfold cachedList, Redis.Get. destruct (rdb r) as [c|]; [|reflexivity].
  destruct (c !! key) as [[v expiry]|]; [|reflexivity].
  intros H Hle.
  destruct (Z.ltb_spec now expiry), (Z.ltb_spec now' expiry);
    try reflexivity; try exact H; lia.
Qed.

End ExpiryFacts.

(** A cached listing is not served once 60 seconds have passed: after a
    [List] that missed the cache at [now], a [List] with the same arguments
    at [now + 60 s] or later reads the store as it is then. *)
Theorem cached_list_expires_after_sixty_seconds
        r now now' tbl' limit offset completed assignee :
  cachedList r now (cacheKeyForList limit offset completed assignee) = None ->
  now + 60 * Second <= now' ->
  fst (List_ (mkTaskRepo tbl' (rdb (snd (List_ r now limit offset
                                                completed assignee))))
             now' limit offset completed assignee)
  = Ok (listFromDB tbl' limit offset completed assignee).
Proof.
  intros Hmiss Hlate. apply ListFacts.List_miss.
  unfold List_ at 1. rewrite Hmiss. cbn [snd].
  destruct (rdb r) as [c|] eqn:Hc.
  - destruct (JSON.Marshal _) as [doc|].
    + unfold cachedList, Redis.Get, Redis.Set_. cbn [rdb].
      rewrite lookup_insert_eq.
      destruct (Z.ltb_spec now' (now + 60 * Second)); [lia | reflexivity].
    + assert (H : cachedList r now'
                             (cacheKeyForList limit offset completed assignee)
                  = None).
      { apply (ExpiryFacts.cachedList_stays_missed r now now' _ Hmiss).
        unfold Second in Hlate. lia. }
      unfold cachedList in *. cbn [rdb]. now rewrite Hc in *.
  - unfold cachedList. cbn [rdb]. now rewrite Hc.
Qed.

Lemma cached_list_expires_after_sixty_seconds_witness :
  fst (List_ (mkTaskRepo [] (rdb (snd (List_ twoTasksCached 7 100 0 None None))))
             (7 + 60 * Second) 100 0 None None)
  = Ok []
  /\ fst (List_ (mkTaskRepo [] (rdb (snd (List_ twoTasksCached 7 100 0 None None))))
                (7 + 60 * Second - 1) 100 0 None None)
     = fst (List_ twoTasksCached 7 100 0 None None).
Proof.
  split; [|vm_compute; reflexivity].
  apply (cached_list_expires_after_sixty_seconds
           twoTasksCached 7 (7 + 60 * Second) [] 100 0 None None).
  - reflexivity.
  - lia.
Defined.

(** A cache entry that does not decode as a task list is ignored: [List]
    reads the store and, when the result can be written, the entry is
    replaced by it. *)
Theorem undecodable_entry_is_replaced
        r c now limit offset completed assignee doc :
  rdb r = Some c ->
  Redis.Get c now (cacheKeyForList limit offset completed assignee) = Some doc ->
  JSON.Unmarshal doc = None ->
  fst (List_ r now limit offset completed assignee)
  = Ok (listFromDB (db r) limit offset completed assignee)
  /\ forall doc',
       JSON.Marshal (listFromDB (db r) limit offset completed assignee)
       = Some doc' ->
       exists c',
         rdb (snd (List_ r now limit offset completed assignee)) = Some c'
         /\ Redis.Get c' now (cacheKeyForList limit offset completed assignee)
            = Some doc'.
Proof.
  intros Hc Hget Hdec.
  assert (Hmiss : cachedList r now
                             (cacheKeyForList limit offset completed assignee)
                  = None).
  { unfold cachedList. now rewrite Hc, Hget. }
  split; [now apply ListFacts.List_miss|].
  intros doc' Hdoc. unfold List_. rewrite Hmiss, Hc, Hdoc. cbn [snd rdb].
  eexists. split; [reflexivity|].
  unfold Redis.Get, Redis.Set_. rewrite lookup_insert_eq.
  destruct (Z.ltb_spec now (now + 60 * Second)); [reflexivity|].
  unfold Second in *. lia.
Qed.

Lemma undecodable_entry_is_replaced_witness :
  let r := mkTaskRepo (db twoTasks)
                      (Some {[cacheKeyForList 100 0 None None
                              := (JBool true, 1000)]}) in
  fst (List_ r 7 100 0 None None) = Ok (listFromDB (db twoTasks) 100 0 None None).
Proof.
  apply (undecodable_entry_is_replaced
           (mkTaskRepo (db twoTasks)
                       (Some {[cacheKeyForList 100 0 None None
                               := (JBool true, 1000)]}))
           {[cacheKeyForList 100 0 None None := (JBool true, 1000)]}
           7 100 0 None None (JBool true)).
  - reflexivity.
  - vm_compute. reflexivity.
  - reflexivity.
Defined.

(** The invalidation deletes list entries only: after a successful create,
    update or delete, every cache key outside [tasks:list:*] still holds
    what it held. *)
Theorem invalidation_keeps_other_keys r c uuid now task id :
  rdb r = Some c ->
  (forall t r',
      Service.Create r uuid now task = (Ok t, r') ->
      exists c', rdb r' = Some c' /\ Props.sameOtherKeys c c')
  /\ (forall t r',
         Service.Update r now task = (Ok t, r') ->
         exists c', rdb r' = Some c' /\ Props.sameOtherKeys c c')
  /\ (forall r',
         Service.Delete r id = (None, r') ->
         exists c', rdb r' = Some c' /\ Props.sameOtherKeys c c').
Proof.
  intros Hc. split; [|split].
  - intros t r' H. apply InvalidationFacts.Create_Ok_inv in H.
    destruct H as (_ & _ & ->). rewrite Hc.
    destruct (WriteFacts.invalidate_rdb_Some (db r ++ [SQL.bindTask t])%list c)
      as [c' Hc'].
    exists c'. split; [exact Hc' | exact (WriteFacts.invalidate_sameOtherKeys _ _ _ Hc')].
  - intros t r' H. apply InvalidationFacts.Update_Ok_inv in H.
    destruct H as (row & _ & _ & ->). rewrite Hc.
    match goal with
    | |- context [invalidateListCache (mkTaskRepo ?tbl _)] =>
        destruct (WriteFacts.invalidate_rdb_Some tbl c) as [c' Hc']
    end.
    exists c'. split; [exact Hc' | exact (WriteFacts.invalidate_sameOtherKeys _ _ _ Hc')].
  - intros r' H. apply InvalidationFacts.Delete_Ok_inv in H. subst r'.
    rewrite Hc.
    match goal with
    | |- context [invalidateListCache (mkTaskRepo ?tbl _)] =>
        destruct (WriteFacts.invalidate_rdb_Some tbl c) as [c' Hc']
    end.
    exists c'. split; [exact Hc' | exact (WriteFacts.invalidate_sameOtherKeys _ _ _ Hc')].
Qed.

Lemma invalidation_keeps_other_keys_witness :
  exists c',
    rdb (snd (Service.Delete cachedRepo "a")) = Some c'
    /\ c' !! "other" = Some (JNull, 1000)
    /\ c' !! cacheKeyForList 100 0 None None = None.
Proof.
  destruct (invalidation_keeps_other_keys
              cachedRepo (default ∅ (rdb cachedRepo)) "u" 7 zeroTask "a" eq_refl)
    as (_ & _ & H).
  destruct (H (snd (Service.Delete cachedRepo "a"))) as (c' & Hc' & Hkeep).
  { vm_compute. reflexivity. }
  exists c'. split; [exact Hc'|]. split.
  - rewrite (Hkeep "other" eq_refl). vm_compute. reflexivity.
  - apply (CacheFacts.invalidate_removes
             (mkTaskRepo [] (rdb cachedRepo)) c' _).
    + rewrite <- Hc'. vm_compute. reflexivity.
    + reflexivity.
Defined.

(** The cache never decides what is stored: the table after any sequence of
    calls is the same whatever the cache held at the start, and whether a
    cache is attached or not. *)
Theorem table_does_not_depend_on_cache tbl cache1 cache2 calls :
  db (run (mkTaskRepo tbl cache1) calls) = db (run (mkTaskRepo tbl cache2) calls).
Proof.
  assert (Honly : forall r now c,
             db (step r now c) = db (step (mkTaskRepo (db r) None) now c)).
  { intros r now c.
    destruct c as [uuid task|id|limit offset completed assignee|task|id|];
      cbn [step]; try reflexivity.
    - destruct (String.eqb_spec (GoStrings.TrimSpace (Title task)) "") as [E|E].
      + now rewrite !(ServiceFacts.Create_invalid _ uuid now task E).
      + destruct (SQL.select_by_id (db r) (ID (createdTask task uuid now)))
          as [row|] eqn:Hsel.
        * rewrite (ServiceFacts.Create_duplicate r uuid now task row E Hsel).
          now rewrite (ServiceFacts.Create_duplicate
                         (mkTaskRepo (db r) None) uuid now task row E Hsel).
        * rewrite (ServiceFacts.Create_fresh r uuid now task E Hsel).
          rewrite (ServiceFacts.Create_fresh
                     (mkTaskRepo (db r) None) uuid now task E Hsel).
          cbn [snd]. now rewrite !CacheFacts.invalidate_db.
    - destruct (StoreFacts.step_table r now
                  (CallList limit offset completed assignee))
        as [H | [(? & ? & [=] & _) | [(? & ? & [=] & _) | (? & [=] & _)]]].
      cbn [step] in H. rewrite H. reflexivity.
    - destruct (SQL.select_by_id (db r) (ID task)) as [row|] eqn:Hsel.
      + destruct (ServiceFacts.titleAccepted_dec task) as [Hacc|Hrej].
        * rewrite (ServiceFacts.Update_found r now task row Hsel Hacc).
          rewrite (ServiceFacts.Update_found
                     (mkTaskRepo (db r) None) now task row Hsel Hacc).
          cbn [snd]. now rewrite !CacheFacts.invalidate_db.
        * rewrite (ServiceFacts.Update_rejected r now task row Hsel Hrej).
          now rewrite (ServiceFacts.Update_rejected
                         (mkTaskRepo (db r) None) now task row Hsel Hrej).
      + rewrite (ServiceFacts.Update_missing r now task Hsel).
        now rewrite (ServiceFacts.Update_missing
                       (mkTaskRepo (db r) None) now task Hsel).
    - unfold Service.Delete, Repositories.Delete, SQL.delete. cbn [db rdb].
      destruct (0 <? Z.of_nat (length (List.filter (SQL.has_id id) (db r))));
        cbn; [now rewrite !CacheFacts.invalidate_db | reflexivity]. }
  assert (Hstep : forall r1 r2 now c,
             db r1 = db r2 -> db (step r1 now c) = db (step r2 now c)).
  { intros r1 r2 now c Hdb.
    now rewrite (Honly r1), (Honly r2), Hdb. }
  assert (Hrun : forall calls r1 r2,
             db r1 = db r2 -> db (run r1 calls) = db (run r2 calls)).
  { clear calls. induction calls as [|[now c] calls IH]; intros r1 r2 Hdb;
      [exact Hdb|].
    cbn [run]. apply IH. now apply Hstep. }
  now apply Hrun.
Qed.

(** Without a cache client the repository works on the store alone: no call
    attaches a cache, and every [List] returns what the store holds and
    leaves the repository as it is. *)
Theorem no_cache_client_is_transparent r calls :
  rdb r = None ->
  rdb (run r calls) = None
  /\ forall now limit offset completed assignee,
       List_ (run r calls) now limit offset completed assignee
       = (Ok (listFromDB (db (run r calls)) limit offset completed assignee),
          run r calls).
Proof.
  intros Hnone.
  assert (Hlist : forall r0, rdb r0 = None ->
            forall now limit offset completed assignee,
              List_ r0 now limit offset completed assignee
              = (Ok (listFromDB (db r0) limit offset completed assignee), r0)).
  { intros r0 H0 now limit offset completed assignee.
    unfold List_, cachedList. now rewrite H0. }
  assert (Hstep : forall r0 now c, rdb r0 = None -> rdb (step r0 now c) = None).
  { intros r0 now c H0.
    destruct c as [uuid task|id|limit offset completed assignee|task|id|];
      cbn [step]; try exact H0.
    - destruct (String.eqb_spec (GoStrings.TrimSpace (Title task)) "") as [E|E].
      + now rewrite (ServiceFacts.Create_invalid r0 uuid now task E).
      + destruct (SQL.select_by_id (db r0) (ID (createdTask task uuid now)))
          as [row|] eqn:Hsel.
        * now rewrite (ServiceFacts.Create_duplicate r0 uuid now task row E Hsel).
        * rewrite (ServiceFacts.Create_fresh r0 uuid now task E Hsel).
          cbn [snd]. now apply CacheFacts.invalidate_rdb_None.
    - unfold Service.List_. rewrite (Hlist r0 H0). cbn. exact H0.
    - destruct (SQL.select_by_id (db r0) (ID task)) as [row|] eqn:Hsel.
      + destruct (ServiceFacts.titleAccepted_dec task) as [Hacc|Hrej].
        * rewrite (ServiceFacts.Update_found r0 now task row Hsel Hacc).
          cbn [snd]. now apply CacheFacts.invalidate_rdb_None.
        * now rewrite (ServiceFacts.Update_rejected r0 now task row Hsel Hrej).
      + now rewrite (ServiceFacts.Update_missing r0 now task Hsel).
    - unfold Service.Delete, Repositories.Delete, SQL.delete.
      destruct (0 <? Z.of_nat (length (List.filter (SQL.has_id id) (db r0))));
        cbn; [now apply CacheFacts.invalidate_rdb_None | exact H0]. }
  assert (Hrun : rdb (run r calls) = None).
  { revert r Hnone. induction calls as [|[now c] calls IH]; intros r Hnone;
      [exact Hnone|].
    cbn [run]. apply IH. now apply Hstep. }
  split; [exact Hrun | now apply Hlist].
Qed.

Lemma no_cache_client_is_transparent_witness :
  rdb (run oneTask Props.moreCalls) = None
  /\ List_ (run oneTask Props.moreCalls) 9 100 0 None None
     = (Ok (listFromDB (db (run oneTask Props.moreCalls)) 100 0 None None),
        run oneTask Props.moreCalls).
Proof.
  destruct (no_cache_client_is_transparent oneTask Props.moreCalls eq_refl)
    as [H1 H2].
  split; [exact H1 | apply H2].
Defined.

Lemma cacheKeyForList_inj_but_any_witness :
  cacheKeyForList 100 0 None (Some "bob") = cacheKeyForList 100 0 None (Some "bob")
  /\ cacheKeyForList 100 0 None (Some "bob") <> cacheKeyForList 100 0 None None
  /\ cacheKeyForList 100 0 None (Some "") <> cacheKeyForList 100 0 None None.
Proof.
  split; [reflexivity|]. split.
  - intros H.
    apply (KeyFacts.cacheKeyForList_inj_but_any
             100 0 None (Some "bob") 100 0 None None) in H;
      [destruct H as (_ & _ & _ & H)|..]; discriminate.
  - intros H.
    apply (KeyFacts.cacheKeyForList_inj_but_any
             100 0 None (Some "") 100 0 None None) in H;
      [destruct H as (_ & _ & _ & H)|..]; discriminate.
Defined.

(** [taskService.List] never changes the table, and its total is counted in
    the store for the given filters, also when the items come from the
    cache. *)
Theorem list_total_is_counted_in_store r now limit offset completed assignee :
  exists items r',
    Service.List_ r now limit offset completed assignee
    = (Ok (items,
           Z.of_nat (length (List.filter (matchesFilters completed assignee)
                                         (storedTasks r)))),
       r')
    /\ Repositories.List_ r now limit offset completed assignee = (Ok items, r')
    /\ db r' = db r.
Proof.
  assert (Hdb : db (snd (List_ r now limit offset completed assignee)) = db r).
  { unfold List_. destruct (cachedList r now _); cbn; [reflexivity|].
    destruct (rdb r); [destruct (JSON.Marshal _)|]; reflexivity. }
  unfold Service.List_.
  destruct (List_ r now limit offset completed assignee) as [[items|e] r'] eqn:E.
  - cbn [snd] in Hdb.
    rewrite ListFacts.CountFiltered_spec. unfold storedTasks. rewrite Hdb.
    exists items, r'. repeat split; assumption.
  - exfalso. revert E. unfold List_.
    destruct (cachedList r now _); discriminate.
Qed.

(** [taskRepo.Update] writes the title, description, completed flag and due
    date of the task it is given and the instant of the call as
    [updated_at]; it keeps the identifier, the assignee and [created_at] of
    the stored row, and empties the list cache.  For an identifier that is
    not stored it reports [ErrNotFound] and changes nothing. *)
Theorem repo_update_replaces_mutable_fields r now t :
  (forall row,
      SQL.select_by_id (db r) (ID t) = Some row ->
      exists r' t',
        Repositories.Update r now (Some t) = (None, r')
        /\ GetByID r' (ID t) = Ok t'
        /\ Title t' = Title t
        /\ SQL.NullString_Value (Description t')
           = SQL.NullString_Value (Description t)
        /\ Completed t' = Completed t
        /\ SQL.NullTime_Value (DueDate t') = SQL.NullTime_Value (DueDate t)
        /\ UpdatedAt t' = now
        /\ ID t' = ID t
        /\ Assignee t' = Assignee (SQL.scanRow row)
        /\ CreatedAt t' = SQL.r_created_at row
        /\ listCacheEmpty r')
  /\ (SQL.select_by_id (db r) (ID t) = None ->
      Repositories.Update r now (Some t) = (Some ErrNotFound, r))
  /\ Repositories.Update r now None = (Some ErrTaskIsNil, r).
Proof.
  split; [|split; [apply ServiceFacts.repo_Update_missing | reflexivity]].
  intros row Hsel.
  pose proof (SQLFacts.select_by_id_Some _ _ _ Hsel) as [_ Hid].
  eexists _, _.
  split; [exact (ServiceFacts.repo_Update_found r now t row Hsel)|].
  split.
  - unfold GetByID. rewrite CacheFacts.invalidate_db. cbn [db].
    rewrite SQLFacts.select_by_id_update, Hsel. cbn [option_map]. reflexivity.
  - unfold SQL.update_row.
    assert (SQL.has_id (SQL.r_id (SQL.bindTask (with_UpdatedAt t now))) row
            = true) as ->.
    { apply SQLFacts.has_id_true. exact Hid. }
    cbn. rewrite !SQLFacts.Value_Scan_string, !SQLFacts.Value_Scan_time.
    repeat split; try reflexivity; try exact Hid.
    apply InvalidationFacts.invalidate_listCacheEmpty.
Qed.

Lemma repo_update_replaces_mutable_fields_witness :
  exists r' t',
    Repositories.Update oneTask 7
      (Some (mkTask "a" "new" (mkNullString "" false) (mkNullString "eve" true)
                    true (mkNullTime 9 true) 0 0))
    = (None, r')
    /\ GetByID r' "a" = Ok t'
    /\ t' = mkTask "a" "new" (mkNullString "" false) (mkNullString "bob" true)
                   true (mkNullTime 9 true) 5 7.
Proof.
  destruct (repo_update_replaces_mutable_fields
              oneTask 7
              (mkTask "a" "new" (mkNullString "" false)
                      (mkNullString "eve" true) true (mkNullTime 9 true) 0 0))
    as (H & _ & _).
  destruct (H (SQL.mkRow "a" "old" (Some "text") (Some "bob") false None 5 5)
              eq_refl) as (r' & t' & Hu & Hg & _).
  exists r', t'. split; [exact Hu|]. split; [exact Hg|].
  vm_compute in Hu. injection Hu as <-. vm_compute in Hg. now injection Hg as <-.
Defined.

(** ** The handlers *)

Module HandlerFacts.
Import SQL SQLFacts ServiceFacts.

Lemma GetByID_missing r id :
  GetByID r id = Err ErrNotFound <-> select_by_id (db r) id = None.
Proof.
  unfold GetByID. destruct (select_by_id (db r) id); split;
    first [discriminate | reflexivity].
Qed.

Lemma GetTask_found r id t :
  id <> "" -> GetByID r id = Ok t -> Handler.GetTask r id = Handler.StatusOK t.
Proof.
  intros Hid H. unfold Handler.GetTask, Service.GetByID.
  destruct (String.eqb_spec id ""); [contradiction|]. now rewrite H.
Qed.

Lemma GetTask_missing r id :
  id <> "" -> GetByID r id = Err ErrNotFound ->
  Handler.GetTask r id = Handler.StatusNotFound.
Proof.
  intros Hid H. unfold Handler.GetTask, Service.GetByID.
  destruct (String.eqb_spec id ""); [contradiction|]. now rewrite H.
Qed.

(** The task a create request becomes once the store has accepted it. *)
Lemma created_from_request dto uuid now :
  createdTask (CreateTaskDTO_ToModel dto) uuid now
  = mkTask uuid (GoStrings.TrimSpace (c_Title dto))
           (match c_Description dto with
            | Some s => mkNullString s true
            | None => nullString
            end)
           (match c_Assignee dto with
            | Some s => if (s =? "")%string then nullString
                        else mkNullString s true
            | None => nullString
            end)
           false
           (match c_DueDate dto with
            | Some dt => mkNullTime dt true
            | None => nullTime
            end)
           now now.
Proof.
  destruct dto as [ti [de|] [a|] [du|]]; unfold createdTask, CreateTaskDTO_ToModel;
    cbn; try destruct (a =? "")%string; reflexivity.
Qed.

Lemma scan_bind_created dto uuid now :
  scanRow (bindTask (createdTask (CreateTaskDTO_ToModel dto) uuid now))
  = createdTask (CreateTaskDTO_ToModel dto) uuid now.
Proof.
  rewrite created_from_request.
  destruct dto as [ti [de|] [a|] [du|]]; cbn;
    try destruct (a =? "")%string; reflexivity.
Qed.

End HandlerFacts.

(** [POST /tasks] answers 400 exactly when the title trims to nothing
    (without touching the store), 500 when the generated identifier is
    taken, and otherwise 201 with the task as stored: the generated
    identifier, the trimmed title, description, assignee and due date as
    the request gives them (an empty assignee is no assignee, an empty
    description is an empty description), not completed, both timestamps
    the instant of the call.  [GET /tasks/:id] then answers 200 with the
    same task. *)
Theorem create_task_answers r uuid now dto :
  uuid <> "" ->
  (GoStrings.TrimSpace (c_Title dto) = "" ->
   Handler.CreateTask r uuid now dto = (Handler.StatusBadRequest, r))
  /\ (GoStrings.TrimSpace (c_Title dto) <> "" ->
      forall t0, GetByID r uuid = Ok t0 ->
      Handler.CreateTask r uuid now dto = (Handler.StatusInternalServerError, r))
  /\ (GoStrings.TrimSpace (c_Title dto) <> "" ->
      GetByID r uuid = Err ErrNotFound ->
      let t :=
        mkTask uuid (GoStrings.TrimSpace (c_Title dto))
               (match c_Description dto with
                | Some s => mkNullString s true
                | None => nullString
                end)
               (match c_Assignee dto with
                | Some s => if (s =? "")%string then nullString
                            else mkNullString s true
                | None => nullString
                end)
               false
               (match c_DueDate dto with
                | Some dt => mkNullTime dt true
                | None => nullTime
                end)
               now now in
      exists r',
        Handler.CreateTask r uuid now dto = (Handler.StatusCreated t, r')
        /\ Handler.GetTask r' uuid = Handler.StatusOK t).
Proof.
  intros Huuid.
  assert (Htitle : Title (CreateTaskDTO_ToModel dto) = c_Title dto).
  { destruct dto as [ti [de|] [a|] [du|]]; unfold CreateTaskDTO_ToModel; cbn;
      try destruct (a =? "")%string; reflexivity. }
  assert (Hid : ID (createdTask (CreateTaskDTO_ToModel dto) uuid now) = uuid).
  { now rewrite HandlerFacts.created_from_request. }
  split; [|split].
  - intros Hempty. unfold Handler.CreateTask.
    destruct (String.eqb_spec (c_Title dto) ""); [reflexivity|].
    rewrite ServiceFacts.Create_invalid; [reflexivity|].
    now rewrite Htitle.
  - intros Hne t0 Hget. unfold Handler.CreateTask.
    destruct (String.eqb_spec (c_Title dto) "") as [E|E].
    { rewrite E in Hne. now contradiction Hne. }
    apply ServiceFacts.GetByID_Ok in Hget. destruct Hget as (row & Hsel & _).
    rewrite (ServiceFacts.Create_duplicate r uuid now _ row);
      [reflexivity | now rewrite Htitle | now rewrite Hid].
  - intros Hne Hmiss t. apply HandlerFacts.GetByID_missing in Hmiss.
    unfold Handler.CreateTask.
    destruct (String.eqb_spec (c_Title dto) "") as [E|E].
    { rewrite E in Hne. now contradiction Hne. }
    rewrite (ServiceFacts.Create_fresh r uuid now (CreateTaskDTO_ToModel dto));
      [|now rewrite Htitle | now rewrite Hid].
    rewrite HandlerFacts.created_from_request. fold t.
    eexists. split; [reflexivity|].
    apply HandlerFacts.GetTask_found; [exact Huuid|].
    unfold GetByID. rewrite CacheFacts.invalidate_db. cbn [db].
    assert (Hsel : SQL.select_by_id (db r) (SQL.r_id (SQL.bindTask t)) = None)
      by exact Hmiss.
    change uuid with (SQL.r_id (SQL.bindTask t)) at 1.
    rewrite (SQLFacts.select_by_id_insert
               (db r) (SQL.bindTask t) _
               (SQLFacts.insert_fresh (db r) (SQL.bindTask t) Hsel)).
    f_equal. unfold t. rewrite <- HandlerFacts.created_from_request.
    apply HandlerFacts.scan_bind_created.
Qed.

Lemma create_task_answers_witness :
  Handler.CreateTask oneTask "u1" 7 (mkCreateTaskDTO "   " None None None)
  = (Handler.StatusBadRequest, oneTask)
  /\ exists r',
       Handler.CreateTask oneTask "u1" 7
         (mkCreateTaskDTO " x " (Some "") (Some "") (Some 9))
       = (Handler.StatusCreated
            (mkTask "u1" "x" (mkNullString "" true) nullString false
                    (mkNullTime 9 true) 7 7), r')
       /\ Handler.GetTask r' "u1"
          = Handler.StatusOK
              (mkTask "u1" "x" (mkNullString "" true) nullString false
                      (mkNullTime 9 true) 7 7).
Proof.
  split.
  - apply (create_task_answers oneTask "u1" 7 (mkCreateTaskDTO "   " None None None));
      [discriminate | reflexivity].
  - apply (create_task_answers
             oneTask "u1" 7 (mkCreateTaskDTO " x " (Some "") (Some "") (Some 9)));
      [discriminate | vm_compute; discriminate | reflexivity].
Defined.

(** [PUT /tasks/:id] on a stored task answers 400, the store untouched,
    when the request has a title made of white space only; otherwise 200
    with the stored task in which the trimmed title, if the request has
    one, and [updated_at] are new and every other field is the stored one,
    and [GET /tasks/:id] then answers 200 with the same task. *)
Theorem update_task_answers r now id dto t0 :
  id <> "" ->
  GetByID r id = Ok t0 ->
  let title := match u_Title dto with Some s => s | None => "" end in
  (title <> "" -> GoStrings.TrimSpace title = "" ->
   Handler.UpdateTask r now id dto = (Handler.StatusBadRequest, r))
  /\ (title = "" \/ GoStrings.TrimSpace title <> "" ->
      let t :=
        mkTask (ID t0)
               (if (title =? "")%string then Title t0
                else GoStrings.TrimSpace title)
               (Description t0) (Assignee t0) (Completed t0) (DueDate t0)
               (CreatedAt t0) now in
      exists r',
        Handler.UpdateTask r now id dto = (Handler.StatusOK t, r')
        /\ Handler.GetTask r' id = Handler.StatusOK t).
Proof.
  intros Hid Hget title.
  set (task := UpdateTaskDTO_ToModel dto id).
  assert (Htid : ID task = id) by apply ServiceFacts.ToModel_ID.
  assert (Htt : Title task = title) by apply ServiceFacts.ToModel_Title.
  split.
  - intros Hne Hempty. unfold Handler.UpdateTask.
    destruct (String.eqb_spec id ""); [contradiction|]. fold task.
    pose proof Hget as Hget'. rewrite <- Htid in Hget'.
    apply ServiceFacts.GetByID_Ok in Hget'. destruct Hget' as (row & Hsel & _).
    rewrite (ServiceFacts.Update_rejected r now task row Hsel); [reflexivity|].
    unfold titleAccepted. rewrite Htt. tauto.
  - intros Hacc t.
    assert (Hacc' : titleAccepted task) by (unfold titleAccepted; now rewrite Htt).
    pose proof Hget as Hget'. rewrite <- Htid in Hget'.
    destruct (ServiceFacts.Update_frame r now task t0 Hget' Hacc')
      as (t1 & r' & Hu & Hg & H1 & H2 & H3 & H4 & H5 & H6 & H7 & H8).
    assert (Ht1 : t1 = t).
    { unfold t. rewrite <- Htt. destruct t1 as [a b c d e f g h].
      cbn in H1, H2, H3, H4, H5, H6, H7, H8. f_equal; assumption. }
    subst t1. exists r'. split.
    + unfold Handler.UpdateTask.
      destruct (String.eqb_spec id ""); [contradiction|]. fold task.
      now rewrite Hu.
    + apply HandlerFacts.GetTask_found; [exact Hid|]. now rewrite <- Htid.
Qed.

Lemma update_task_answers_witness :
  Handler.UpdateTask oneTask 7 "a"
    (mkUpdateTaskDTO (Some "  ") None None (Some true) None)
  = (Handler.StatusBadRequest, oneTask)
  /\ exists r',
       Handler.UpdateTask oneTask 7 "a"
         (mkUpdateTaskDTO (Some " new ") None None None None)
       = (Handler.StatusOK
            (mkTask "a" "new" (mkNullString "text" true)
                    (mkNullString "bob" true) false nullTime 5 7), r')
       /\ Handler.GetTask r' "a"
          = Handler.StatusOK
              (mkTask "a" "new" (mkNullString "text" true)
                      (mkNullString "bob" true) false nullTime 5 7).
Proof.
  split.
  - apply (update_task_answers
             oneTask 7 "a" (mkUpdateTaskDTO (Some "  ") None None (Some true) None)
             (mkTask "a" "old" (mkNullString "text" true)
                     (mkNullString "bob" true) false nullTime 5 5));
      first [discriminate | reflexivity].
  - apply (update_task_answers
             oneTask 7 "a" (mkUpdateTaskDTO (Some " new ") None None None None)
             (mkTask "a" "old" (mkNullString "text" true)
                     (mkNullString "bob" true) false nullTime 5 5));
      [discriminate | reflexivity | right; vm_compute; discriminate].
Defined.

(** [DELETE /tasks/:id] answers 404, the store untouched, for an identifier
    that is not stored, and 204 for a stored one; after a 204 both
    [GET /tasks/:id] and a second [DELETE /tasks/:id] answer 404. *)
Theorem delete_task_answers r id :
  id <> "" ->
  (GetByID r id = Err ErrNotFound ->
   Handler.DeleteTask r id = (Handler.StatusNotFound, r))
  /\ (forall t,
         GetByID r id = Ok t ->
         exists r',
           Handler.DeleteTask r id = (Handler.StatusNoContent, r')
           /\ Handler.GetTask r' id = Handler.StatusNotFound
           /\ Handler.DeleteTask r' id = (Handler.StatusNotFound, r')).
Proof.
  intros Hid.
  assert (Hmissing : forall r0, GetByID r0 id = Err ErrNotFound ->
            Handler.DeleteTask r0 id = (Handler.StatusNotFound, r0)).
  { intros r0 Hmiss. apply HandlerFacts.GetByID_missing in Hmiss.
    unfold Handler.DeleteTask, Service.Delete, Repositories.Delete, SQL.delete.
    destruct (String.eqb_spec id ""); [contradiction|].
    rewrite (proj2 (SQLFacts.affected_zero (db r0) id) Hmiss). cbn.
    rewrite SQLFacts.delete_untouched by exact Hmiss. now destruct r0. }
  split; [apply Hmissing|].
  intros t Hget. apply ServiceFacts.GetByID_Ok in Hget.
  destruct Hget as (row & Hsel & _).
  pose proof (SQLFacts.affected_pos _ _ _ Hsel) as Hpos.
  assert (Hdel : Service.Delete r id
                 = (None,
                    invalidateListCache
                      (mkTaskRepo
                         (List.filter (fun x => negb (SQL.has_id id x)) (db r))
                         (rdb r)))).
  { unfold Service.Delete, Repositories.Delete, SQL.delete.
    destruct (Z.ltb_spec 0 (Z.of_nat (length (List.filter (SQL.has_id id)
                                                          (db r)))));
      [reflexivity | lia]. }
  assert (Hgone : GetByID
                    (invalidateListCache
                       (mkTaskRepo
                          (List.filter (fun x => negb (SQL.has_id id x)) (db r))
                          (rdb r))) id = Err ErrNotFound).
  { unfold GetByID. rewrite CacheFacts.invalidate_db. cbn [db].
    now rewrite SQLFacts.select_by_id_delete. }
  eexists. split; [|split].
  - unfold Handler.DeleteTask.
    destruct (String.eqb_spec id ""); [contradiction|]. now rewrite Hdel.
  - now apply HandlerFacts.GetTask_missing.
  - now apply Hmissing.
Qed.

Lemma delete_task_answers_witness :
  Handler.DeleteTask oneTask "missing" = (Handler.StatusNotFound, oneTask)
  /\ exists r',
       Handler.DeleteTask oneTask "a" = (Handler.StatusNoContent, r')
       /\ Handler.GetTask r' "a" = Handler.StatusNotFound
       /\ Handler.DeleteTask r' "a" = (Handler.StatusNotFound, r').
Proof.
  split.
  - apply (delete_task_answers oneTask "missing"); [discriminate | reflexivity].
  - destruct (delete_task_answers oneTask "a") as [_ H]; [discriminate|].
    apply (H (mkTask "a" "old" (mkNullString "text" true)
                     (mkNullString "bob" true) false nullTime 5 5)).
    reflexivity.
Defined.

(** [GET /tasks] settles its arguments before it calls the service: the
    limit is positive (100 unless the parameter is a positive integer), the
    offset is not negative (0 unless the parameter is a non-negative
    integer), an empty assignee is no filter, so [List] never has to
    default them; a [completed] parameter that is not a boolean literal is
    answered 400 without a call; otherwise the answer is 200 with the
    items of [List], the limit and offset used, and the total counted in
    the store, also in the header. *)
Theorem list_tasks_settles_its_arguments r now q :
  0 < ListHandler.limitOf q
  /\ 0 <= ListHandler.offsetOf q
  /\ ListHandler.assigneeOf q <> Some ""
  /\ Props.effectiveLimit (ListHandler.limitOf q) = ListHandler.limitOf q
  /\ Props.effectiveOffset (ListHandler.offsetOf q) = ListHandler.offsetOf q
  /\ (ListHandler.completedOf q = None ->
      ListHandler.ListTasks r now q = (ListHandler.StatusBadRequest, r))
  /\ (forall completed,
         ListHandler.completedOf q = Some completed ->
         let total :=
           Z.of_nat (length (List.filter
                               (matchesFilters completed
                                               (ListHandler.assigneeOf q))
                               (storedTasks r))) in
         exists items r',
           ListHandler.ListTasks r now q
           = (ListHandler.StatusOK (Strconv.Itoa total) items
                                   (ListHandler.limitOf q)
                                   (ListHandler.offsetOf q) total, r')
           /\ List_ r now (ListHandler.limitOf q) (ListHandler.offsetOf q)
                    completed (ListHandler.assigneeOf q)
              = (Ok items, r')).
Proof.
  assert (Hl : 0 < ListHandler.limitOf q).
  { unfold ListHandler.limitOf.
    destruct (negb _); [|lia]. destruct (Strconv.Atoi _) as [v|]; [|lia].
    destruct (Z.ltb_spec 0 v); lia. }
  assert (Ho : 0 <= ListHandler.offsetOf q).
  { unfold ListHandler.offsetOf.
    destruct (negb _); [|lia]. destruct (Strconv.Atoi _) as [v|]; [|lia].
    destruct (Z.leb_spec 0 v); lia. }
  split; [exact Hl|]. split; [exact Ho|]. split; [|split; [|split; [|split]]].
  - unfold ListHandler.assigneeOf.
    destruct (String.eqb_spec (ListHandler.q_assignee q) ""); simpl;
      congruence.
  - unfold Props.effectiveLimit.
    destruct (Z.leb_spec (ListHandler.limitOf q) 0); [lia | reflexivity].
  - unfold Props.effectiveOffset.
    destruct (Z.ltb_spec (ListHandler.offsetOf q) 0); [lia | reflexivity].
  - intros Hc. unfold ListHandler.ListTasks. now rewrite Hc.
  - intros completed Hc total. unfold ListHandler.ListTasks. rewrite Hc.
    unfold Service.List_.
    destruct (List_ r now (ListHandler.limitOf q) (ListHandler.offsetOf q)
                    completed (ListHandler.assigneeOf q))
      as [[items|e] r'] eqn:E.
    + assert (Hdb : db r' = db r).
      { replace r' with (snd (List_ r now (ListHandler.limitOf q)
                                    (ListHandler.offsetOf q) completed
                                    (ListHandler.assigneeOf q)))
          by now rewrite E.
        unfold List_. destruct (cachedList r now _); cbn; [reflexivity|].
        destruct (rdb r); [destruct (JSON.Marshal _)|]; reflexivity. }
      rewrite ListFacts.CountFiltered_spec. unfold storedTasks. rewrite Hdb.
      exists items, r'. split; reflexivity.
    + exfalso. revert E. unfold List_.
      destruct (cachedList r now _); discriminate.
Qed.

Lemma list_tasks_settles_its_arguments_witness :
  ListHandler.ListTasks twoTasks 7 (ListHandler.mkQuery "0" "-5" "maybe" "")
  = (ListHandler.StatusBadRequest, twoTasks)
  /\ ListHandler.ListTasks twoTasks 7 (ListHandler.mkQuery "abc" "+1" "T" "")
     = (ListHandler.StatusOK "1" [] 100 1 1, twoTasks)
  /\ exists items r',
       ListHandler.ListTasks twoTasks 7 (ListHandler.mkQuery "1" "" "" "bob")
       = (ListHandler.StatusOK "1" items 1 0 1, r').
Proof.
  split; [|split; [reflexivity|]].
  - apply (list_tasks_settles_its_arguments
             twoTasks 7 (ListHandler.mkQuery "0" "-5" "maybe" "")).
    reflexivity.
  - destruct (list_tasks_settles_its_arguments
                twoTasks 7 (ListHandler.mkQuery "1" "" "" "bob"))
      as (_ & _ & _ & _ & _ & _ & H).
    destruct (H None eq_refl) as (items & r' & Hlist & _).
    exists items, r'. exact Hlist.
Defined.

(** ** The cache as a whole *)

Module CoherenceFacts.
Import SQL SQLFacts ServiceFacts Props.

Lemma listCacheEmpty_fresh r : listCacheEmpty r -> freshEntries r.
Proof.
  intros He c k doc expiry Hc Hk Hg. rewrite (He c k Hc Hg) in Hk. discriminate.
Qed.

(** A call other than a listing either leaves the repository as it is or
    empties the list cache. *)
Lemma step_write r now c :
  (forall limit offset completed assignee,
      c <> CallList limit offset completed assignee) ->
  step r now c = r \/ listCacheEmpty (step r now c).
Proof.
  intros Hc.
  destruct c as [uuid task|id|limit offset completed assignee|task|id|];
    cbn [step]; try (left; reflexivity).
  - destruct (String.eqb_spec (GoStrings.TrimSpace (Title task)) "") as [E|E].
    + left. now rewrite (Create_invalid r uuid now task E).
    + destruct (select_by_id (db r) (ID (createdTask task uuid now)))
        as [row|] eqn:Hsel.
      * left. now rewrite (Create_duplicate r uuid now task row E Hsel).
      * right. rewrite (Create_fresh r uuid now task E Hsel). cbn [snd].
        apply InvalidationFacts.invalidate_listCacheEmpty.
  - now contradiction (Hc limit offset completed assignee).
  - destruct (select_by_id (db r) (ID task)) as [row|] eqn:Hsel.
    + destruct (titleAccepted_dec task) as [Hacc|Hrej].
      * right. rewrite (Update_found r now task row Hsel Hacc). cbn [snd].
        apply InvalidationFacts.invalidate_listCacheEmpty.
      * left. now rewrite (Update_rejected r now task row Hsel Hrej).
    + left. now rewrite (Update_missing r now task Hsel).
  - unfold Service.Delete, Repositories.Delete, SQL.delete.
    destruct (select_by_id (db r) id) as [row|] eqn:Hsel.
    + right. pose proof (affected_pos _ _ _ Hsel) as Hpos.
      destruct (Z.ltb_spec 0 (Z.of_nat (length (List.filter (has_id id) (db r)))));
        [|lia].
      cbn. apply InvalidationFacts.invalidate_listCacheEmpty.
    + left. rewrite (proj2 (affected_zero (db r) id) Hsel). cbn.
      rewrite delete_untouched by exact Hsel. now destruct r.
Qed.

(** With fresh entries a listing that avoids the assignee ["any"] returns
    what the store holds, on a hit as on a miss. *)
Lemma fresh_List r now limit offset completed assignee :
  freshEntries r -> assignee <> Some "any" ->
  fst (List_ r now limit offset completed assignee)
  = Ok (listFromDB (db r) limit offset completed assignee).
Proof.
  intros Hf Ha. unfold List_.
  destruct (cachedList r now _) as [cached|] eqn:Hhit; [|reflexivity].
  cbn [fst]. f_equal. unfold cachedList, Redis.Get in Hhit.
  destruct (rdb r) as [c|] eqn:Hc; [|discriminate].
  destruct (c !! cacheKeyForList limit offset completed assignee)
    as [[doc expiry]|] eqn:Hk; [|discriminate].
  destruct (now <? expiry); [|discriminate].
  destruct (Hf c _ doc expiry Hc Hk
               (CacheFacts.cacheKey_in_namespace limit offset completed assignee))
    as (l' & o' & c' & a' & Ha' & Hkey & Hdoc).
  apply KeyFacts.cacheKeyForList_inj in Hkey.
  destruct Hkey as (-> & -> & -> & Hv).
  assert (assignee = a') as ->.
  { destruct assignee as [x|], a' as [y|]; simpl in Hv; subst; congruence. }
  congruence.
Qed.

Lemma List_fresh r now limit offset completed assignee :
  freshEntries r -> assignee <> Some "any" ->
  freshEntries (snd (List_ r now limit offset completed assignee)).
Proof.
  intros Hf Ha. unfold List_.
  destruct (cachedList r now _) as [cached|] eqn:Hhit; [exact Hf|].
  cbn [snd]. destruct (rdb r) as [c|] eqn:Hc; [|exact Hf].
  destruct (JSON.Marshal _) as [doc|] eqn:Hdoc; [|exact Hf].
  intros c' k doc' expiry Hc' Hk Hg. cbn [rdb db] in *.
  injection Hc' as <-. unfold Redis.Set_ in Hk.
  destruct (decide (cacheKeyForList limit offset completed assignee = k))
    as [<-|Hne].
  - rewrite lookup_insert_eq in Hk. injection Hk as <- <-.
    exists limit, offset, completed, assignee.
    split; [exact Ha|]. split; [reflexivity|].
    apply JSONFacts.Unmarshal_Marshal; [|exact Hdoc].
    apply JSONFacts.listFromDB_normalised.
  - rewrite lookup_insert_ne in Hk by exact Hne.
    exact (Hf c k doc' expiry Hc Hk Hg).
Qed.

Lemma step_fresh r now c :
  freshEntries r -> avoidsAny c -> freshEntries (step r now c).
Proof.
  intros Hf Ha.
  destruct c as [uuid task|id|limit offset completed assignee|task|id|];
    try (match goal with
         | |- freshEntries (step r now ?call) =>
             destruct (step_write r now call) as [->|He];
             [intros; discriminate | exact Hf | now apply listCacheEmpty_fresh]
         end).
  cbn [step]. unfold Service.List_.
  pose proof (List_fresh r now limit offset completed assignee Hf Ha) as H.
  destruct (List_ r now limit offset completed assignee) as [[items|e] r'];
    exact H.
Qed.

End CoherenceFacts.

(** Short of the assignee filter ["any"], the cache is never seen: start
    from a repository whose list entries are fresh (an empty cache, or no
    cache) and make any calls, none listing with the assignee ["any"];
    then every [List] that does not filter on ["any"] returns exactly what
    the store holds at that moment, whether it is served from the cache or
    not. *)
Theorem cache_is_never_seen_without_assignee_any
        r calls now limit offset completed assignee :
  Props.freshEntries r ->
  Forall (fun nc => Props.avoidsAny (snd nc)) calls ->
  assignee <> Some "any" ->
  fst (List_ (run r calls) now limit offset completed assignee)
  = Ok (listFromDB (db (run r calls)) limit offset completed assignee).
Proof.
  intros Hf Hcalls Ha. apply CoherenceFacts.fresh_List; [|exact Ha].
  clear Ha. revert r Hf.
  induction Hcalls as [|[now' c] calls Hc _ IH]; intros r Hf; [exact Hf|].
  cbn [run]. apply IH. now apply CoherenceFacts.step_fresh.
Qed.

Lemma cache_is_never_seen_without_assignee_any_witness :
  Redis.Get (default ∅ (rdb (run twoTasksCached Props.mixedCalls))) 12
            (cacheKeyForList 100 0 None None)
  = JSON.Marshal (listFromDB (db (run twoTasksCached Props.mixedCalls))
                             100 0 None None)
  /\ fst (List_ (run twoTasksCached Props.mixedCalls) 12 100 0 None None)
     = Ok (listFromDB (db (run twoTasksCached Props.mixedCalls)) 100 0 None None).
Proof.
  split; [vm_compute; reflexivity|].
  apply (cache_is_never_seen_without_assignee_any
           twoTasksCached Props.mixedCalls 12 100 0 None None).
  - intros c k doc expiry Hc Hk _. injection Hc as <-.
    rewrite lookup_empty in Hk. discriminate.
  - unfold Props.mixedCalls. repeat constructor; cbn; discriminate.
  - discriminate.
Defined.
